(** * Codextendo summarization helpers: a shallow embedding of [summaries.py]

    The development follows the source file top to bottom: Python values
    (strings as sequences of code points, JSON documents, exceptions), the
    token counter, the payload normaliser [_render_payload], the transcript
    reader [_collect_segments], the budget trimmer [_trim_segments] and the
    batch orchestrator [refresh_summaries].  Definitions come first, the
    properties of the specification afterwards. *)

From stdpp Require Import base option list gmap strings.
From Stdlib Require Import DecimalString Sorted.

Set Warnings "-register-all".
Set Default Proof Using "Type".
Open Scope Z_scope.

(** ** Python values *)

(** A Python [str] is a sequence of Unicode code points; [bytes] is a
    sequence of octets.  Both are lists of integers. *)
Abbreviation pystr := (list Z) (only parsing).
Abbreviation pybytes := (list Z) (only parsing).

(** Literals are written as Rocq strings (one code point per character). *)
Definition py (s : string) : pystr :=
  (λ a, Z.of_N (Ascii.N_of_ascii a)) <$> String.list_ascii_of_string s.

(** Exceptions that the modelled code can raise. *)
Inductive exn :=
| IndexError
| AttributeError
| TypeError
| RuntimeError (msg : pystr)
| OSError
| KeyError (key : pystr).

(** Outcome of a computation: a value, a raised exception, or [OutOfFuel]
    when a [while] loop of the model was cut before its condition failed
    (the theorems show this never happens). *)
Inductive result (A : Type) :=
| Ok (a : A)
| Raise (e : exn)
| OutOfFuel.
Arguments Ok {A} a.
Arguments Raise {A} e.
Arguments OutOfFuel {A}.

Definition bind {A B} (m : result A) (k : A → result B) : result B :=
  match m with
  | Ok a => k a
  | Raise e => Raise e
  | OutOfFuel => OutOfFuel
  end.

Notation "'do' x <- m ; k" := (bind m (λ x, k))
  (at level 10, x name, m at level 100, k at level 200,
   format "'[v' 'do'  x  <-  m ; '/' k ']'").
Notation "'do' ' p <- m ; k" := (bind m (λ x, match x with p => k end))
  (at level 10, p pattern, m at level 100, k at level 200,
   format "'[v' 'do'  ' p  <-  m ; '/' k ']'").

(** JSON documents as [json.loads] builds them: [None], [bool], [int],
    [float] (kept as its binary64 bit pattern), [str], [list] and [dict]
    (insertion ordered, keys unique). *)
Inductive json :=
| JNull
| JBool (b : bool)
| JInt (z : Z)
| JFloat (bits : Z)
| JStr (s : pystr)
| JList (l : list json)
| JDict (d : list (pystr * json)).

Abbreviation pydict := (list (pystr * json)) (only parsing).

(** *** Strings *)

Definition is_empty {A} (l : list A) : bool :=
  match l with [] => true | _ :: _ => false end.

(** [str.isspace] on one code point (the Unicode white space characters). *)
Definition isspace (c : Z) : bool :=
  ((9 <=? c) && (c <=? 13)) || ((28 <=? c) && (c <=? 32))
  || (c =? 0x85) || (c =? 0xA0) || (c =? 0x1680)
  || ((0x2000 <=? c) && (c <=? 0x200A))
  || (c =? 0x2028) || (c =? 0x2029) || (c =? 0x202F) || (c =? 0x205F)
  || (c =? 0x3000).

Fixpoint lstrip (s : pystr) : pystr :=
  match s with
  | c :: s' => if isspace c then lstrip s' else s
  | [] => []
  end.

Definition rstrip (s : pystr) : pystr := reverse (lstrip (reverse s)).

(** [s.strip()] *)
Definition strip (s : pystr) : pystr := rstrip (lstrip s).

(** [sep.join(parts)] on strings. *)
Fixpoint join (sep : pystr) (parts : list pystr) : pystr :=
  match parts with
  | [] => []
  | [p] => p
  | p :: rest => p ++ sep ++ join sep rest
  end.

(** [s.split(sep)] for a one-character separator. *)
Fixpoint split (sep : Z) (s : pystr) : list pystr :=
  match s with
  | [] => [[]]
  | c :: s' =>
      if c =? sep then [] :: split sep s'
      else match split sep s' with
           | p :: ps => (c :: p) :: ps
           | [] => [[c]]
           end
  end.

(** [s.replace(old, new)] for a one-character [old]. *)
Definition replace_char (old : Z) (new : pystr) (s : pystr) : pystr :=
  s ≫= (λ c, if c =? old then new else [c]).

(** [a <= b] on strings: lexicographic on code points. *)
Fixpoint str_leb (a b : pystr) : bool :=
  match a, b with
  | [], _ => true
  | _ :: _, [] => false
  | x :: a', y :: b' =>
      if x <? y then true else if y <? x then false else str_leb a' b'
  end.

(** [str(n)] for an [int]. *)
Definition str_of_int (z : Z) : pystr :=
  py (NilZero.string_of_int (Z.to_int z)).

(** [s.encode("utf-8", errors="ignore")]: surrogate code points cannot be
    encoded and are left out. *)
Definition utf8_cp (c : Z) : pybytes :=
  if c <? 0x80 then [c]
  else if c <? 0x800 then [0xC0 + c `div` 64; 0x80 + c `mod` 64]
  else if (0xD800 <=? c) && (c <=? 0xDFFF) then []
  else if c <? 0x10000 then
    [0xE0 + c `div` 4096; 0x80 + (c `div` 64) `mod` 64; 0x80 + c `mod` 64]
  else
    [0xF0 + c `div` 262144; 0x80 + (c `div` 4096) `mod` 64;
     0x80 + (c `div` 64) `mod` 64; 0x80 + c `mod` 64].

Definition utf8_ignore (s : pystr) : pybytes := s ≫= utf8_cp.

(** *** Dates *)

(** A [datetime]: the wall-clock reading in microseconds and, when the
    value is aware, its UTC offset in microseconds. *)
Record datetime := { wall : Z; tzinfo : option Z }.

(** [a > b] on aware values compares the instants. *)
Definition dt_gt (a b : datetime) : bool :=
  (wall b - default 0 (tzinfo b)) <? (wall a - default 0 (tzinfo a)).

(** *** Library functions that are not modelled further *)

Class PyRuntime := {
  (** [str.upper] on one code point outside ASCII *)
  unicode_upper : Z → pystr;
  (** [float.__repr__] on a binary64 bit pattern *)
  float_repr : Z → pystr;
  (** [repr] of a [list] or a [dict] *)
  container_repr : json → pystr;
  (** [json.loads]; [None] stands for [JSONDecodeError] *)
  json_loads : pystr → option json;
  (** [hashlib.sha256(data).hexdigest()] *)
  sha256_hexdigest : pybytes → pystr;
  (** [datetime.fromisoformat]; [None] stands for [ValueError] *)
  fromisoformat : pystr → option datetime;
  (** [datetime.isoformat] *)
  isoformat : datetime → pystr;
  (** [tiktoken.get_encoding(...)], when the package is installed *)
  tiktoken_encoding : option (pystr → list Z);
  (** [str(directory / name)] with [pathlib] *)
  path_join : pystr → pystr → pystr;
}.

(** [s.upper()] *)
Definition upper_cp `{PyRuntime} (c : Z) : pystr :=
  if (97 <=? c) && (c <=? 122) then [c - 32]
  else if c <? 128 then [c]
  else unicode_upper c.

Definition upper `{PyRuntime} (s : pystr) : pystr := s ≫= upper_cp.

(** *** Dynamic typing *)

(** [bool(v)] *)
Definition truthy (v : json) : bool :=
  match v with
  | JNull => false
  | JBool b => b
  | JInt z => negb (z =? 0)
  | JFloat bits => negb (bits `mod` 0x8000000000000000 =? 0)
  | JStr s => negb (is_empty s)
  | JList l => negb (is_empty l)
  | JDict d => negb (is_empty d)
  end.

(** [a or b] *)
Definition por (a b : json) : json := if truthy a then a else b.

(** [v == s] for a string literal [s] *)
Definition str_eq (v : json) (s : pystr) : bool :=
  match v with
  | JStr t => bool_decide (t = s)
  | _ => false
  end.

(** [v in {s1, s2, ...}]: the set hashes [v] first. *)
Definition in_str_set (v : json) (ss : list pystr) : result bool :=
  match v with
  | JList _ | JDict _ => Raise TypeError
  | JStr t => Ok (bool_decide (t ∈ ss))
  | _ => Ok false
  end.

(** [d.get(key, default)] on a [dict] *)
Fixpoint dict_get (d : pydict) (key : pystr) (dflt : json) : json :=
  match d with
  | [] => dflt
  | (k, v) :: d' => if bool_decide (k = key) then v else dict_get d' key dflt
  end.

(** [d[key]] *)
Fixpoint dict_item (d : pydict) (key : pystr) : result json :=
  match d with
  | [] => Raise (KeyError key)
  | (k, v) :: d' => if bool_decide (k = key) then Ok v else dict_item d' key
  end.

(** [v.get(key)] on any value: only a [dict] has the method. *)
Definition py_get (v : json) (key : pystr) : result json :=
  match v with
  | JDict d => Ok (dict_get d key JNull)
  | _ => Raise AttributeError
  end.

(** [v.upper()] and [v.strip()] on any value *)
Definition str_upper `{PyRuntime} (v : json) : result pystr :=
  match v with
  | JStr s => Ok (upper s)
  | _ => Raise AttributeError
  end.

Definition str_strip (v : json) : result pystr :=
  match v with
  | JStr s => Ok (strip s)
  | _ => Raise AttributeError
  end.

(** [for x in v] *)
Definition py_iter (v : json) : result (list json) :=
  match v with
  | JList l => Ok l
  | JStr s => Ok ((λ c, JStr [c]) <$> s)
  | JDict d => Ok ((λ kv, JStr kv.1) <$> d)
  | _ => Raise TypeError
  end.

(** [sep.join(parts)] on any values: every part must be a [str]. *)
Fixpoint str_parts (parts : list json) : result (list pystr) :=
  match parts with
  | [] => Ok []
  | JStr s :: rest => do ss <- str_parts rest; Ok (s :: ss)
  | _ :: _ => Raise TypeError
  end.

Definition str_join (sep : pystr) (parts : list json) : result pystr :=
  do ss <- str_parts parts; Ok (join sep ss).

(** [str(v)], also the conversion of an f-string field *)
Definition py_str `{PyRuntime} (v : json) : pystr :=
  match v with
  | JNull => py "None"
  | JBool true => py "True"
  | JBool false => py "False"
  | JInt z => str_of_int z
  | JFloat bits => float_repr bits
  | JStr s => s
  | JList _ | JDict _ => container_repr v
  end.

(** *** json.dumps(value, indent=2, ensure_ascii=False, sort_keys=True) *)

Definition hex_digit (n : Z) : Z :=
  if n <? 10 then 48 + n else 87 + n.

Definition escape_cp (c : Z) : pystr :=
  if c =? 92 then [92; 92]
  else if c =? 34 then [92; 34]
  else if c =? 8 then [92; 98]
  else if c =? 12 then [92; 102]
  else if c =? 10 then [92; 110]
  else if c =? 13 then [92; 114]
  else if c =? 9 then [92; 116]
  else if c <? 32 then
    [92; 117; 48; 48; hex_digit (c `div` 16); hex_digit (c `mod` 16)]
  else [c].

Definition encode_basestring (s : pystr) : pystr :=
  [34] ++ (s ≫= escape_cp) ++ [34].

Definition floatstr `{PyRuntime} (bits : Z) : pystr :=
  let exponent := (bits `div` 0x10000000000000) `mod` 2048 in
  let mantissa := bits `mod` 0x10000000000000 in
  if exponent =? 2047 then
    if negb (mantissa =? 0) then py "NaN"
    else if bits <? 0x8000000000000000 then py "Infinity"
    else py "-Infinity"
  else float_repr bits.

(** [sorted(dct.items())]: keys are unique, so the order is that of the
    keys; the values are already rendered. *)
Fixpoint insert_item (kv : pystr * pystr) (items : list (pystr * pystr))
    : list (pystr * pystr) :=
  match items with
  | [] => [kv]
  | kv' :: rest =>
      if str_leb kv.1 kv'.1 then kv :: items else kv' :: insert_item kv rest
  end.

Definition sort_items (items : list (pystr * pystr)) : list (pystr * pystr) :=
  foldr insert_item [] items.

Definition newline_indent (level : nat) : pystr :=
  [10] ++ replicate (2 * level) 32.

Fixpoint dumps `{PyRuntime} (level : nat) (v : json) {struct v} : pystr :=
  match v with
  | JNull => py "null"
  | JBool true => py "true"
  | JBool false => py "false"
  | JInt z => str_of_int z
  | JFloat bits => floatstr bits
  | JStr s => encode_basestring s
  | JList [] => py "[]"
  | JList l =>
      py "[" ++ newline_indent (S level)
      ++ join (py "," ++ newline_indent (S level)) (dumps (S level) <$> l)
      ++ newline_indent level ++ py "]"
  | JDict [] => py "{}"
  | JDict d =>
      py "{" ++ newline_indent (S level)
      ++ join (py "," ++ newline_indent (S level))
           ((λ kv, encode_basestring kv.1 ++ py ": " ++ kv.2)
              <$> sort_items ((λ kv, (kv.1, dumps (S level) kv.2)) <$> d))
      ++ newline_indent level ++ py "}"
  end.

Definition _format_json `{PyRuntime} (value : json) : pystr := dumps 0 value.

(** ** _parse_timestamp *)

Definition _parse_timestamp `{PyRuntime} (raw : json)
    : result (option datetime) :=
  if negb (truthy raw) then Ok None
  else
    match raw with
    | JStr s =>
        let cleaned := replace_char 90 (py "+00:00") s in
        match fromisoformat cleaned with
        | None => Ok None
        | Some ts =>
            match tzinfo ts with
            | None => Ok (Some {| wall := wall ts; tzinfo := Some 0 |})
            | Some _ => Ok (Some ts)
            end
        end
    | _ => Raise AttributeError
    end.

(** ** _derive_session_id *)

(** A path is the string that [str(path)] gives. *)

(** [path.name]: the final component; the path [.] has none. *)
Definition path_name (path : pystr) : pystr :=
  if bool_decide (path = py ".") then []
  else default [] (last (split 47 path)).

(** [name.rfind(".")], as the number of characters before the last dot. *)
Fixpoint rfind_dot (name : pystr) : option nat :=
  match name with
  | [] => None
  | c :: rest =>
      match rfind_dot rest with
      | Some i => Some (S i)
      | None => if c =? 46 then Some 0%nat else None
      end
  end.

(** [path.stem]: the name without its last suffix. *)
Definition path_stem (path : pystr) : pystr :=
  let name := path_name path in
  match rfind_dot name with
  | Some i =>
      if (0 <? Z.of_nat i) && (Z.of_nat i <? Z.of_nat (length name) - 1)
      then take i name else name
  | None => name
  end.

Definition _derive_session_id (path : pystr) : pystr :=
  let stem := path_stem path in
  let parts := split 45 stem in
  if 5 <=? Z.of_nat (length parts) then
    let tail := drop (length parts - 5) parts in
    if forallb (λ p, negb (is_empty p)) tail then join (py "-") tail
    else stem
  else stem.

(** [d[key] = value] on a [dict]: a present key keeps its place. *)
Fixpoint dict_set (d : pydict) (key : pystr) (value : json) : pydict :=
  match d with
  | [] => [(key, value)]
  | (k, v) :: d' =>
      if bool_decide (k = key) then (k, value) :: d'
      else (k, v) :: dict_set d' key value
  end.

(** [d.update(other)], also [{**d, **other}] *)
Definition dict_update (d other : pydict) : pydict :=
  foldl (λ acc kv, dict_set acc kv.1 kv.2) d other.

(** ** TokenCounter *)

(** [encoder] is the tiktoken encoding when the package is installed. *)
Record TokenCounter := { encoder : option (pystr → list Z) }.

Definition count (self : TokenCounter) (text : pystr) : Z :=
  match encoder self with
  | Some enc => Z.of_nat (length (enc text))
  | None => Z.max 1 (Z.of_nat (length text) `div` 4)
  end.

Definition precise (self : TokenCounter) : bool :=
  match encoder self with Some _ => true | None => false end.

(** ** _render_payload *)

(** The common tail of [_render_payload]:
    [if content is None: return None], then strip and drop empty text. *)
Definition render_tail (prefix : pystr) (content : option pystr)
    : option (pystr * pystr) :=
  match content with
  | None => None
  | Some content =>
      let content := strip content in
      if is_empty content then None else Some (prefix, content)
  end.

(** [{k: v for k, v in payload.items() if k != "type"}] *)
Definition without_type (payload : pydict) : pydict :=
  filter (λ kv, kv.1 ≠ py "type") payload.

(** The [text] fields of the [dict] members of a sequence. *)
Definition dict_texts (items : list json) : list json :=
  items ≫= (λ item,
    match item with
    | JDict d => [dict_get d (py "text") (JStr [])]
    | _ => []
    end).

Definition _render_payload `{PyRuntime} (payload : pydict)
    : result (option (pystr * pystr)) :=
  let ptype := dict_get payload (py "type") JNull in
  if str_eq ptype (py "message") then
    do role <- str_upper (dict_get payload (py "role") (JStr (py "unknown")));
    do chunks <- py_iter (por (dict_get payload (py "content") JNull) (JList []));
    do joined <- str_join [] (dict_texts chunks);
    let content := strip joined in
    if is_empty content then Ok None
    else Ok (render_tail role (Some content))
  else
  do is_user_or_agent <-
    in_str_set ptype [py "user_message"; py "agent_message"];
  if is_user_or_agent then
    do prefix <- str_upper ptype;
    do content <- str_strip (dict_get payload (py "message") (JStr []));
    Ok (render_tail prefix (Some content))
  else if str_eq ptype (py "agent_reasoning") then
    do content <- str_strip (dict_get payload (py "text") (JStr []));
    Ok (render_tail (py "AGENT_REASONING") (Some content))
  else if str_eq ptype (py "reasoning") then
    do content <-
      match dict_get payload (py "summary") JNull with
      | JList items =>
          do joined <- str_join [10] (dict_texts items); Ok (Some (strip joined))
      | JDict summary =>
          do t <- str_strip (dict_get summary (py "text") (JStr [])); Ok (Some t)
      | _ => Ok None
      end;
    let content :=
      if is_empty (default [] content)
         && truthy (dict_get payload (py "encrypted_content") JNull)
      then Some (py "<encrypted reasoning content>")
      else content in
    Ok (render_tail (py "REASONING") content)
  else if str_eq ptype (py "function_call") then
    let name := dict_get payload (py "name") (JStr []) in
    let prefix := strip (py "FUNCTION_CALL " ++ py_str name) in
    let content :=
      match dict_get payload (py "arguments") JNull with
      | JStr arguments =>
          match json_loads arguments with
          | Some parsed => _format_json parsed
          | None => arguments
          end
      | arguments => _format_json arguments
      end in
    Ok (render_tail prefix (Some content))
  else if str_eq ptype (py "function_call_output") then
    let call_id := dict_get payload (py "call_id") (JStr []) in
    let prefix := strip (py "FUNCTION_OUTPUT " ++ py_str call_id) in
    let content :=
      match dict_get payload (py "output") JNull with
      | (JDict _ | JList _) as output => _format_json output
      | output => strip (py_str (por output (JStr [])))
      end in
    Ok (render_tail prefix (Some content))
  else if str_eq ptype (py "token_count") then
    let content :=
      _format_json (JDict [
        (py "info", dict_get payload (py "info") JNull);
        (py "rate_limits", dict_get payload (py "rate_limits") JNull)]) in
    Ok (render_tail (py "TOKEN_COUNT") (Some content))
  else if str_eq ptype (py "turn_aborted") then
    Ok (render_tail (py "TURN_ABORTED")
          (Some (_format_json (JDict (without_type payload)))))
  else if str_eq ptype (py "event_msg") then
    Ok (render_tail (py "EVENT")
          (Some (_format_json (JDict (without_type payload)))))
  else
    do prefix <- str_upper (por ptype (JStr (py "UNKNOWN")));
    Ok (render_tail prefix
          (Some (_format_json (JDict (without_type payload))))).

(** ** Segments *)

Record Segment := {
  header : pystr;
  text : pystr;
  combined : pystr;
  payload_type : json;
  timestamp : option pystr;
}.

(** ** _collect_segments *)

(** State of the reader's loop: the segments, the latest timestamp and the
    bytes fed so far to the running SHA-256. *)
Definition reader_state : Type := list Segment * option datetime * pybytes.

(** One round of [for raw in fh]. *)
Definition collect_line `{PyRuntime} (st : reader_state) (raw : pystr)
    : result reader_state :=
  let '(segments, latest_ts, digest) := st in
  match json_loads raw with
  | None => Ok st
  | Some data =>
      do payload0 <- py_get data (py "payload");
      let payload := por payload0 (JDict []) in
      do ptype <- py_get payload (py "type");
      do ts_payload <- py_get payload (py "timestamp");
      do ts_raw <-
        (if truthy ts_payload then Ok ts_payload
         else py_get data (py "timestamp"));
      do ts <- _parse_timestamp ts_raw;
      let latest_ts :=
        match ts, latest_ts with
        | Some t, None => Some t
        | Some t, Some latest => if dt_gt t latest then Some t else latest_ts
        | None, _ => latest_ts
        end in
      match payload with
      | JDict payload =>
          do rendered <- _render_payload payload;
          match rendered with
          | None => Ok (segments, latest_ts, digest)
          | Some (header, text) =>
              let combined := header ++ py ":" ++ [10] ++ strip text in
              let digest :=
                digest ++ utf8_ignore header ++ [0] ++ utf8_ignore text in
              Ok (segments ++ [{|
                    header := header;
                    text := text;
                    combined := combined;
                    payload_type := ptype;
                    timestamp := isoformat <$> ts |}],
                  latest_ts, digest)
          end
      | _ => Raise AttributeError
      end
  end.

Fixpoint collect_loop `{PyRuntime} (lines : list pystr) (st : reader_state)
    : result reader_state :=
  match lines with
  | [] => Ok st
  | raw :: rest => do st' <- collect_line st raw; collect_loop rest st'
  end.

(** The transcript file is given by its lines. *)
Definition _collect_segments `{PyRuntime} (lines : list pystr)
    : result (list Segment * option datetime * pystr) :=
  do '(segments, latest_ts, digest) <- collect_loop lines ([], None, []);
  Ok (segments, latest_ts, sha256_hexdigest digest).

(** The [(header, text)] pairs of a stream of segments. *)
Definition segment_pairs (segments : list Segment) : list (pystr * pystr) :=
  (λ seg, (header seg, text seg)) <$> segments.

(** Unicode scalar values: the code points that UTF-8 encodes. *)
Definition scalar (c : Z) : Prop :=
  0 ≤ c < 0xD800 ∨ 0xE000 ≤ c < 0x110000.

(** The bytes that a stream of segments feeds to the digest. *)
Definition digest_input (segments : list Segment) : pybytes :=
  segments ≫= (λ seg, utf8_ignore (header seg) ++ [0] ++ utf8_ignore (text seg)).

(** ** _trim_segments *)

Definition sum_tokens (counter : TokenCounter) (segs : list Segment) : Z :=
  foldr Z.add 0 ((λ seg, count counter (combined seg)) <$> segs).

(** [while start_index < len(segments) - 1 and running > max_tokens] *)
Fixpoint cut_loop (fuel : nat) (token_counts : list Z) (len_segments : Z)
    (max_tokens : Z) (start_index : nat) (running : Z) : result (nat * Z) :=
  if (Z.of_nat start_index <? len_segments - 1) && (max_tokens <? running) then
    match fuel with
    | O => OutOfFuel
    | S fuel' =>
        match token_counts !! start_index with
        | None => Raise IndexError
        | Some c =>
            cut_loop fuel' token_counts len_segments max_tokens
              (S start_index) (running - c)
        end
    end
  else Ok (start_index, running).

(** [while len(trimmed) > 1 and trimmed_tokens > max_tokens]: each round
    pops the head of [trimmed]. *)
Fixpoint safety_loop (counter : TokenCounter) (max_tokens : Z)
    (trimmed : list Segment) (trimmed_tokens : Z) : list Segment * Z :=
  match trimmed with
  | removed :: rest =>
      if (1 <? Z.of_nat (length trimmed)) && (max_tokens <? trimmed_tokens) then
        safety_loop counter max_tokens rest
          (trimmed_tokens - count counter (combined removed))
      else (trimmed, trimmed_tokens)
  | [] => (trimmed, trimmed_tokens)
  end.

Definition _trim_segments (segments : list Segment) (max_tokens : Z)
    (counter : TokenCounter) : result (list Segment * bool * Z) :=
  match segments with
  | [] => Ok (segments, false, 0)
  | _ :: _ =>
      if max_tokens <=? 0 then Ok (segments, false, sum_tokens counter segments)
      else
        let token_counts := (λ seg, count counter (combined seg)) <$> segments in
        let total_tokens := foldr Z.add 0 token_counts in
        if total_tokens <=? max_tokens then Ok (segments, false, total_tokens)
        else
          let truncated := true in
          do '(start_index, running) <-
            cut_loop (length segments) token_counts (Z.of_nat (length segments))
              max_tokens 0%nat total_tokens;
          let trimmed := drop start_index segments in
          let trimmed_tokens := sum_tokens counter trimmed in
          let '(trimmed, trimmed_tokens) :=
            match trimmed with
            | [] =>
                match last segments with
                | Some seg => ([seg], count counter (combined seg))
                | None => (trimmed, trimmed_tokens)
                end
            | _ :: _ => (trimmed, trimmed_tokens)
            end in
          let '(trimmed, trimmed_tokens) :=
            safety_loop counter max_tokens trimmed trimmed_tokens in
          Ok (trimmed, truncated, trimmed_tokens)
  end.

(** ** _build_user_prompt *)

Definition _build_user_prompt `{PyRuntime} (session_id : pystr) (label : json)
    (truncated : bool) (kept_tokens : Z) (total_segments kept_segments : nat)
    (latest_ts : option datetime) (combined_text : pystr) : pystr :=
  let lines := [py "Session ID: " ++ session_id] in
  let lines :=
    if truthy label then lines ++ [py "Label: " ++ py_str label] else lines in
  let lines :=
    match latest_ts with
    | Some ts => lines ++ [py "Latest message: " ++ isoformat ts]
    | None => lines
    end in
  let lines :=
    if truncated then
      lines ++ [py "NOTE: Transcript truncated to the most recent "
                ++ str_of_int (Z.of_nat kept_segments) ++ py " of "
                ++ str_of_int (Z.of_nat total_segments) ++ py " segments (~"
                ++ str_of_int kept_tokens ++ py " tokens)."]
    else lines in
  join [10] (lines ++ [[]; py "Transcript:"; combined_text]).

(** ** The world around a run *)

(** A transcript file: its modification time and its lines. *)
Record File := { st_mtime : Z; lines : list pystr }.

(** What a run reads and does not change: the files by path, the paths
    that [sessions_dir.rglob("*.jsonl")] yields in traversal order, and the
    label file (decoded, when it exists and decodes). *)
Record Env := {
  files : gmap (list Z) File;
  rglob_jsonl : list pystr;
  label_doc : option json;
}.

(** Answer of an external service. *)
Inductive reply (A : Type) :=
| Done (a : A)
| Failed (e : exn).
Arguments Done {A} a.
Arguments Failed {A} e.

Definition reply_result {A} (r : reply A) : result A :=
  match r with Done a => Ok a | Failed e => Raise e end.

(** The collaborators of the summarizer.  Each is asked at a tick of the
    run, so that two calls with the same arguments may differ. *)
Class Services := {
  (** [os.environ.get("OPENAI_API_KEY")] *)
  api_key : option pystr;
  (** [requests.post(...)] and the decoding of the response, for a model,
      a system prompt and a user prompt *)
  post_responses : nat → pystr → pystr → pystr → reply json;
  (** [_now_utc().isoformat()] *)
  now_iso : nat → pystr;
  (** the directory, JSON and Markdown writes of [_write_summary] *)
  write_summary_files : nat → pydict → reply ();
  (** the write of [_append_history] *)
  write_history_file : nat → pydict → reply ();
}.

(** Lines printed by a run. *)
Inductive event :=
| TokenWarning
| UpToDate
| WarnFailed (name : pystr) (e : exn)
| Refreshed (session_id : pystr) (history_path : json).

(** What a run changes: the index file (the document it holds, [None]
    when it is missing or does not decode), the ticks elapsed, the
    requests sent to the remote summarizer, the module-level flag
    [_TOKEN_WARNING_EMITTED] and the printed lines. *)
Record State := {
  index_doc : option json;
  tick : nat;
  requests : nat;
  token_warning_emitted : bool;
  output : list event;
}.

(** Computations that change the state and may raise. *)
Definition M (A : Type) : Type := State → result A * State.

Definition ret {A} (a : A) : M A := λ st, (Ok a, st).

Definition lift {A} (r : result A) : M A := λ st, (r, st).

Definition bindM {A B} (m : M A) (k : A → M B) : M B :=
  λ st,
    match m st with
    | (Ok a, st') => k a st'
    | (Raise e, st') => (Raise e, st')
    | (OutOfFuel, st') => (OutOfFuel, st')
    end.

Notation "'run' x <- m ; k" := (bindM m (λ x, k))
  (at level 10, x name, m at level 100, k at level 200,
   format "'[v' 'run'  x  <-  m ; '/' k ']'").
Notation "'run' ' p <- m ; k" := (bindM m (λ x, match x with p => k end))
  (at level 10, p pattern, m at level 100, k at level 200,
   format "'[v' 'run'  ' p  <-  m ; '/' k ']'").

(** [try: ... except Exception as exc: ...] *)
Definition attempt {A} (m : M A) : M (A + exn) :=
  λ st,
    match m st with
    | (Ok a, st') => (Ok (inl a), st')
    | (Raise e, st') => (Ok (inr e), st')
    | (OutOfFuel, st') => (OutOfFuel, st')
    end.

Definition next_tick : M nat :=
  λ st, (Ok (tick st),
         {| index_doc := index_doc st; tick := S (tick st);
            requests := requests st;
            token_warning_emitted := token_warning_emitted st;
            output := output st |}).

Definition count_request : M () :=
  λ st, (Ok (),
         {| index_doc := index_doc st; tick := tick st;
            requests := S (requests st);
            token_warning_emitted := token_warning_emitted st;
            output := output st |}).

Definition print (e : event) : M () :=
  λ st, (Ok (),
         {| index_doc := index_doc st; tick := tick st;
            requests := requests st;
            token_warning_emitted := token_warning_emitted st;
            output := output st ++ [e] |}).

Definition write_index (index_data : pydict) : M () :=
  λ st, (Ok (),
         {| index_doc := Some (JDict index_data); tick := tick st;
            requests := requests st;
            token_warning_emitted := token_warning_emitted st;
            output := output st |}).

(** [_load_json(index_path, default={})], then [{}] unless it is a dict *)
Definition load_index : M pydict :=
  λ st, (Ok match index_doc st with Some (JDict d) => d | _ => [] end, st).

(** The warning about approximate counting, printed once. *)
Definition warn_token_counter (counter : TokenCounter) : M () :=
  λ st,
    if negb (precise counter) && negb (token_warning_emitted st) then
      (Ok (),
       {| index_doc := index_doc st; tick := tick st;
          requests := requests st;
          token_warning_emitted := true;
          output := output st ++ [TokenWarning] |})
    else (Ok (), st).

(** ** _request_summary *)

Definition _request_summary `{Services} (model system_prompt user_prompt : pystr)
    : M json :=
  match api_key with
  | None | Some [] =>
      lift (Raise (RuntimeError
                     (py "Set OPENAI_API_KEY to summarize conversations.")))
  | Some (_ :: _) =>
      run t <- next_tick;
      run _ <- count_request;
      lift (reply_result (post_responses t model system_prompt user_prompt))
  end.

(** ** _write_summary *)

Definition _write_summary `{Services} (session_id : pystr) (label : json)
    (model : pystr) (truncated : bool) (kept_tokens : Z)
    (original_digest : pystr) (summary_payload : json) : M pydict :=
  run t <- next_tick;
  let generated_at := now_iso t in
  match summary_payload with
  | JDict payload =>
      let record :=
        dict_update
          [(py "session_id", JStr session_id);
           (py "label", label);
           (py "generated_at", JStr generated_at);
           (py "model", JStr model);
           (py "truncated", JBool truncated);
           (py "kept_tokens", JInt kept_tokens);
           (py "digest", JStr original_digest)]
          payload in
      run t' <- next_tick;
      run _ <- lift (reply_result (write_summary_files t' record));
      ret record
  | _ => lift (Raise TypeError)
  end.

(** ** _append_history *)

(** The history file is named after the [session_id] field of the record.
    [_now_utc()] is evaluated for the default of [generated_at] whether the
    record has the field or not; the write itself is the collaborators'. *)
Definition _append_history `{PyRuntime} `{Services} (summary_dir : pystr)
    (record : pydict) : M pystr :=
  run session_id <- lift (dict_item record (py "session_id"));
  let history_path :=
    path_join summary_dir (py_str session_id ++ py ".history.md") in
  run t <- next_tick;
  run _ <- lift (reply_result (write_history_file t record));
  ret history_path.

(** ** summarize_session *)

Definition system_prompt : pystr :=
  py "You are an assistant that summarizes Codex CLI sessions. "
  ++ py "Produce a concise narrative plus structured key actions, files, concerns, "
  ++ py "and concrete follow-ups. Limit key_actions to the top 6 items and files_touched to the top 10 paths. "
  ++ py "Always obey the supplied JSON schema, using empty arrays when appropriate.".

Definition opt_str (o : option pystr) : json :=
  match o with Some s => JStr s | None => JNull end.

Definition summarize_session `{PyRuntime} `{Services} (env : Env)
    (path : pystr) (label : json) (model : pystr) (max_tokens : Z)
    (summary_dir : pystr) (label_map : json) : M pydict :=
  match files env !! path with
  | None => lift (Raise (RuntimeError (py "Session file not found: " ++ path)))
  | Some file =>
      let session_id := _derive_session_id path in
      run label <-
        (if truthy label then ret label else lift (py_get label_map path));
      run '(segments, latest_ts, digest) <-
        lift (_collect_segments (lines file));
      if is_empty segments then
        lift (Raise (RuntimeError (py "No message content found in session.")))
      else
        let counter := {| encoder := tiktoken_encoding |} in
        run _ <- warn_token_counter counter;
        run '(trimmed_segments, truncated, kept_tokens) <-
          lift (_trim_segments segments max_tokens counter);
        let combined_text := join [10; 10] (combined <$> trimmed_segments) in
        let user_prompt :=
          _build_user_prompt session_id label truncated kept_tokens
            (length segments) (length trimmed_segments) latest_ts
            combined_text in
        run summary_payload <- _request_summary model system_prompt user_prompt;
        run record <-
          _write_summary session_id label model truncated kept_tokens digest
            summary_payload;
        let record :=
          dict_update record
            [(py "session_path", JStr path);
             (py "latest_timestamp", opt_str (isoformat <$> latest_ts))] in
        let record :=
          if precise counter then record
          else dict_set record (py "token_counter") (JStr (py "approximate")) in
        run history_path <- _append_history summary_dir record;
        ret (dict_set record (py "history_path") (JStr history_path))
  end.

(** ** refresh_summaries *)

(** [sorted(paths, key=lambda p: p.stat().st_mtime)]: stable. *)
Fixpoint insert_by_mtime (x : Z * pystr) (sorted : list (Z * pystr))
    : list (Z * pystr) :=
  match sorted with
  | [] => [x]
  | y :: rest =>
      if x.1 <=? y.1 then x :: sorted else y :: insert_by_mtime x rest
  end.

Fixpoint with_mtime (env : Env) (paths : list pystr)
    : result (list (Z * pystr)) :=
  match paths with
  | [] => Ok []
  | p :: rest =>
      match files env !! p with
      | None => Raise OSError
      | Some f => do keyed <- with_mtime env rest; Ok ((st_mtime f, p) :: keyed)
      end
  end.

Definition sorted_sessions (env : Env) : result (list pystr) :=
  do keyed <- with_mtime env (rglob_jsonl env);
  Ok (snd <$> foldr insert_by_mtime [] keyed).

(** [sessions[-limit:]] when [limit] is neither [None] nor zero. *)
Definition apply_limit (limit : option Z) (sessions : list pystr)
    : list pystr :=
  match limit with
  | None => sessions
  | Some n =>
      if n =? 0 then sessions
      else if 0 <? n then drop (length sessions - Z.to_nat n) sessions
      else drop (Z.to_nat (- n)) sessions
  end.

(** [recorded == fresh] for a fresh value that is a [str] or [None] *)
Definition same_opt_str (recorded : json) (fresh : option pystr) : bool :=
  match fresh, recorded with
  | Some s, JStr t => bool_decide (t = s)
  | None, JNull => true
  | _, _ => false
  end.

(** The body of the first loop: does [path] have to be processed? *)
Definition needs_refresh `{PyRuntime} (env : Env) (index_data : pydict)
    (force : bool) (path : pystr) : result bool :=
  let session_id := _derive_session_id path in
  let entry := dict_get index_data session_id JNull in
  if force || match entry with JNull => true | _ => false end then Ok true
  else
    do recorded_digest <- py_get entry (py "digest");
    do recorded_mtime <- py_get entry (py "latest_timestamp");
    do file <-
      match files env !! path with
      | Some f => Ok f
      | None => Raise OSError
      end;
    do '(segments, latest_ts, digest) <- _collect_segments (lines file);
    if is_empty segments then Ok false
    else
      let latest_iso := isoformat <$> latest_ts in
      Ok (negb (same_opt_str recorded_digest (Some digest))
          || negb (same_opt_str recorded_mtime latest_iso)).

(** The first loop: which transcripts have to be processed. *)
Fixpoint scan `{PyRuntime} (env : Env) (index_data : pydict) (force : bool)
    (sessions : list pystr) (to_process : list pystr) : result (list pystr) :=
  match sessions with
  | [] => Ok to_process
  | path :: rest =>
      do stale <- needs_refresh env index_data force path;
      scan env index_data force rest
        (if stale then to_process ++ [path] else to_process)
  end.

(** The second loop: summarize each transcript and record the successes. *)
Fixpoint process `{PyRuntime} `{Services} (env : Env) (model : pystr)
    (max_tokens : Z) (summary_dir : pystr) (label_map : json)
    (to_process : list pystr) (index_data : pydict) : M pydict :=
  match to_process with
  | [] => ret index_data
  | path :: rest =>
      let session_id := _derive_session_id path in
      run outcome <-
        attempt (summarize_session env path JNull model max_tokens
                   summary_dir label_map);
      match outcome with
      | inr exc =>
          run _ <- print (WarnFailed (path_name path) exc);
          process env model max_tokens summary_dir label_map rest index_data
      | inl record =>
          run t <- next_tick;
          let record := dict_set record (py "summarized_at") (JStr (now_iso t)) in
          let index_data := dict_set index_data session_id (JDict record) in
          run _ <-
            print (Refreshed session_id
                     (dict_get record (py "history_path") JNull));
          process env model max_tokens summary_dir label_map rest index_data
      end
  end.

(** The directories that [_ensure_dir] creates are taken to exist. *)
Definition refresh_summaries `{PyRuntime} `{Services} (env : Env)
    (summary_dir : pystr) (model : pystr) (max_tokens : Z)
    (limit : option Z) (force : bool) : M () :=
  let label_map := default (JDict []) (label_doc env) in
  run index_data <- load_index;
  run sessions <- lift (sorted_sessions env);
  let sessions := apply_limit limit sessions in
  run to_process <- lift (scan env index_data force sessions []);
  if is_empty to_process then print UpToDate
  else
    run index_data <-
      process env model max_tokens summary_dir label_map to_process index_data;
    write_index index_data.

(** *** The course of a batch *)




(** The index that a run starts from. *)
Definition loaded_index (st : State) : pydict :=
  match index_doc st with Some (JDict d) => d | _ => [] end.

(** The ten payload kinds that [_render_payload] names. *)
Definition known_kinds : list pystr :=
  [py "message"; py "user_message"; py "agent_message"; py "agent_reasoning";
   py "reasoning"; py "function_call"; py "function_call_output";
   py "token_count"; py "turn_aborted"; py "event_msg"].

(** ** Sample data for concrete runs *)

Definition quoted (s : string) : pystr := [34] ++ py s ++ [34].

(** [{"payload": {"type": "user_message", "message": <msg>}}] *)
Definition user_message_line (msg : string) : pystr :=
  py "{" ++ quoted "payload" ++ py ": {" ++ quoted "type" ++ py ": "
  ++ quoted "user_message" ++ py ", " ++ quoted "message" ++ py ": "
  ++ quoted msg ++ py "}}".

Definition user_message_record (msg : pystr) : json :=
  JDict [(py "payload",
          JDict [(py "type", JStr (py "user_message"));
                 (py "message", JStr msg)])].

Definition line_b : pystr := user_message_line "B".

(** The message of this line is [B], [USER_MESSAGE], a NUL character
    (written [\u0000] in the file) and [B]. *)
Definition line_bb : pystr := user_message_line "BUSER_MESSAGE\u0000B".

Definition line_array : pystr := py "[]".

Definition line_broken : pystr := py "{" ++ quoted "payload" ++ py ": {".

(** A runtime for concrete runs.  It decodes the sample lines as CPython
    does and rejects every other text; the remaining services are
    stand-ins (identity upper-casing outside ASCII, a hexadecimal dump in
    place of SHA-256, no tiktoken). *)
Definition sample_loads (raw : pystr) : option json :=
  if bool_decide (raw = line_b) then Some (user_message_record (py "B"))
  else if bool_decide (raw = line_bb) then
    Some (user_message_record (py "BUSER_MESSAGE" ++ [0] ++ py "B"))
  else if bool_decide (raw = line_array) then Some (JList [])
  else None.

Definition hex_dump (data : pybytes) : pystr :=
  data ≫= (λ b, [hex_digit (b `div` 16); hex_digit (b `mod` 16)]).

Definition sample_runtime : PyRuntime := {|
  unicode_upper c := [c];
  float_repr _ := py "0.0";
  container_repr _ := py "[...]";
  json_loads := sample_loads;
  sha256_hexdigest := hex_dump;
  fromisoformat _ := None;
  isoformat _ := [];
  tiktoken_encoding := None;
  path_join directory name := directory ++ py "/" ++ name;
|}.

(** The segments that the sample lines give. *)
Definition seg_b : Segment :=
  {| header := py "USER_MESSAGE"; text := py "B";
     combined := py "USER_MESSAGE:" ++ [10] ++ py "B";
     payload_type := JStr (py "user_message"); timestamp := None |}.

Definition seg_bb : Segment :=
  {| header := py "USER_MESSAGE";
     text := py "BUSER_MESSAGE" ++ [0] ++ py "B";
     combined := py "USER_MESSAGE:" ++ [10] ++ py "BUSER_MESSAGE" ++ [0] ++ py "B";
     payload_type := JStr (py "user_message"); timestamp := None |}.

(** Collaborators for concrete runs: a key is configured, the remote
    summarizer answers every request with an empty summary, and every write
    succeeds. *)
Definition sample_summary : json :=
  JDict [(py "summary", JStr (py "ok")); (py "key_actions", JList []);
         (py "files_touched", JList []); (py "concerns", JList []);
         (py "follow_up", JList [])].

Definition sample_services : Services := {|
  api_key := Some (py "key");
  post_responses _ _ _ _ := Done sample_summary;
  now_iso t := py "2025-01-01T00:00:0" ++ str_of_int (Z.of_nat t);
  write_summary_files _ _ := Done ();
  write_history_file _ _ := Done ();
|}.

Definition initial_state : State :=
  {| index_doc := None; tick := 0; requests := 0;
     token_warning_emitted := false; output := [] |}.

(** One transcript without any line and one with the line [line_b]. *)
Definition env_empty_and_b : Env :=
  {| files := {[ py "sessions/a.jsonl" := {| st_mtime := 1; lines := [] |};
                 py "sessions/b.jsonl" := {| st_mtime := 2; lines := [line_b] |} ]};
     rglob_jsonl := [py "sessions/a.jsonl"; py "sessions/b.jsonl"];
     label_doc := None |}.

(** One transcript, with the line [line_b]. *)
Definition env_only_b : Env :=
  {| files := {[ py "sessions/b.jsonl" := {| st_mtime := 2; lines := [line_b] |} ]};
     rglob_jsonl := [py "sessions/b.jsonl"];
     label_doc := None |}.


(** [{"type": "diff_applied", "files": 2}], a payload of a kind the
    normaliser does not know. *)
Definition payload_diff_applied : pydict :=
  [(py "type", JStr (py "diff_applied")); (py "files", JInt 2)].

(** [{"type": 5, "files": 2}], a payload whose kind is a number. *)
Definition payload_numeric_kind : pydict :=
  [(py "type", JInt 5); (py "files", JInt 2)].

(** A sample segment and the approximate counter, for concrete runs. *)
Definition fallback_counter : TokenCounter := {| encoder := None |}.

Definition mk_segment (h t : pystr) (ptype : json) : Segment :=
  {| header := h; text := t; combined := h ++ py ":" ++ [10] ++ t;
     payload_type := ptype; timestamp := None |}.

Definition seg_hello : Segment :=
  mk_segment (py "USER") (py "hello world") (JStr (py "message")).

Definition seg_bye : Segment :=
  mk_segment (py "ASSISTANT") (py "bye") (JStr (py "message")).

(** ** Further sample data *)


(** [{"type": "user_message", "message": "B"}] *)
Definition payload_user_b : pydict :=
  [(py "type", JStr (py "user_message")); (py "message", JStr (py "B"))].

(** [{"type": "agent_message", "message": "  "}] *)
Definition payload_blank : pydict :=
  [(py "type", JStr (py "agent_message")); (py "message", JStr (py "  "))].

(** [{"type": "reasoning", "summary": [], "encrypted_content": "gAAA"}] *)
Definition payload_encrypted : pydict :=
  [(py "type", JStr (py "reasoning")); (py "summary", JList []);
   (py "encrypted_content", JStr (py "gAAA"))].

(** [{"type": "token_count", "info": null}] *)
Definition payload_token_count : pydict :=
  [(py "type", JStr (py "token_count")); (py "info", JNull)].

(** Collaborators whose key is set to the empty string. *)
Definition keyless_services : Services := {|
  api_key := Some [];
  post_responses _ _ _ _ := Done sample_summary;
  now_iso t := py "2025-01-01T00:00:0" ++ str_of_int (Z.of_nat t);
  write_summary_files _ _ := Done ();
  write_history_file _ _ := Done ();
|}.

(** *** What a computation leaves alone *)

(** [keeps R m]: from every state, [m] ends in a state related by [R]. *)
Definition keeps {A} (R : State → State → Prop) (m : M A) : Prop :=
  ∀ st, R st (m st).2.

(** No request is sent and the index file is not written. *)
Definition no_request (s s' : State) : Prop :=
  requests s' = requests s ∧ index_doc s' = index_doc s.

(** At most one request is sent and the index file is not written. *)
Definition one_request (s s' : State) : Prop :=
  (requests s ≤ requests s' ≤ S (requests s))%nat
  ∧ index_doc s' = index_doc s.



(* ================================================================== *)
(** * Properties *)

(** ** The token counter *)

Lemma count_nonneg counter t : 0 ≤ count counter t.
Proof. unfold count. destruct (encoder counter); lia. Qed.

Lemma sum_tokens_cons counter seg segs :
  sum_tokens counter (seg :: segs)
  = count counter (combined seg) + sum_tokens counter segs.
Proof. reflexivity. Qed.

Lemma sum_tokens_nonneg counter segs : 0 ≤ sum_tokens counter segs.
Proof.
  induction segs as [|seg segs IH]; [done|].
  rewrite sum_tokens_cons.
  pose proof (count_nonneg counter (combined seg)). lia.
Qed.

Lemma sum_tokens_drop counter segs k :
  foldr Z.add 0 (drop k ((λ seg, count counter (combined seg)) <$> segs))
  = sum_tokens counter (drop k segs).
Proof. unfold sum_tokens. by rewrite fmap_drop. Qed.

(** ** The greedy cut *)

Lemma cut_loop_spec fuel (counts : list Z) max_tokens k running :
  (k < length counts)%nat →
  (length counts - 1 - k ≤ fuel)%nat →
  running = foldr Z.add 0 (drop k counts) →
  ∃ k', cut_loop fuel counts (Z.of_nat (length counts)) max_tokens k running
          = Ok (k', foldr Z.add 0 (drop k' counts))
        ∧ (k ≤ k' < length counts)%nat
        ∧ (k' = (length counts - 1)%nat ∨ foldr Z.add 0 (drop k' counts) ≤ max_tokens)
        ∧ ∀ j, (k ≤ j < k')%nat → max_tokens < foldr Z.add 0 (drop j counts).
Proof.
  revert k running. induction fuel as [|fuel IH]; intros k running Hk Hfuel ->.
  - exists k. simpl.
    replace (Z.of_nat k <? Z.of_nat (length counts) - 1) with false by lia.
    simpl. split_and!; [done|lia|lia|lia|intros; lia].
  - simpl.
    destruct (Z.of_nat k <? Z.of_nat (length counts) - 1) eqn:Hlt; simpl;
      [|exists k; split_and!; [done|lia|lia|lia|intros; lia]].
    destruct (max_tokens <? foldr Z.add 0 (drop k counts)) eqn:Hover;
      [|exists k; split_and!; [done|lia|lia|right; lia|intros; lia]].
    destruct (lookup_lt_is_Some_2 counts k Hk) as [c Hc].
    rewrite Hc. rewrite (drop_S _ _ _ Hc) in Hover |- *. simpl in Hover |- *.
    destruct (IH (S k) (foldr Z.add 0 (drop (S k) counts)))
      as (k' & Hrun & Hrange & Hstop & Hbefore); [lia|lia|done|].
    exists k'.
    replace (c + foldr Z.add 0 (drop (S k) counts) - c)
      with (foldr Z.add 0 (drop (S k) counts)) by lia.
    split_and!; [done|lia|lia|done|].
    intros j Hj. destruct (decide (j = k)) as [->|Hne].
    + rewrite (drop_S _ _ _ Hc). simpl. lia.
    + apply Hbefore. lia.
Qed.

Lemma safety_loop_id counter max_tokens trimmed trimmed_tokens :
  (length trimmed ≤ 1)%nat ∨ trimmed_tokens ≤ max_tokens →
  safety_loop counter max_tokens trimmed trimmed_tokens
  = (trimmed, trimmed_tokens).
Proof.
  intros H. destruct trimmed as [|removed rest]; [done|].
  cbn [safety_loop].
  destruct ((1 <? Z.of_nat (length (removed :: rest)))
            && (max_tokens <? trimmed_tokens)) eqn:Hc; [|done].
  apply andb_true_iff in Hc as [H1%Z.ltb_lt H2%Z.ltb_lt].
  cbn [length] in *. lia.
Qed.

(** ** The three exits of [_trim_segments] *)

Lemma trim_disabled segs max_tokens counter :
  max_tokens ≤ 0 →
  _trim_segments segs max_tokens counter
  = Ok (segs, false, sum_tokens counter segs).
Proof.
  intros Hmax. destruct segs as [|seg segs]; [done|].
  unfold _trim_segments. by replace (max_tokens <=? 0) with true by lia.
Qed.

Lemma trim_fits segs max_tokens counter :
  0 < max_tokens →
  sum_tokens counter segs ≤ max_tokens →
  _trim_segments segs max_tokens counter
  = Ok (segs, false, sum_tokens counter segs).
Proof.
  intros Hmax Hfit. destruct segs as [|seg segs]; [done|].
  unfold _trim_segments. replace (max_tokens <=? 0) with false by lia.
  fold (sum_tokens counter (seg :: segs)).
  by replace (sum_tokens counter (seg :: segs) <=? max_tokens) with true by lia.
Qed.

Lemma trim_cut segs max_tokens counter :
  0 < max_tokens →
  max_tokens < sum_tokens counter segs →
  ∃ k, (k < length segs)%nat
     ∧ _trim_segments segs max_tokens counter
       = Ok (drop k segs, true, sum_tokens counter (drop k segs))
     ∧ (k = (length segs - 1)%nat
        ∨ sum_tokens counter (drop k segs) ≤ max_tokens)
     ∧ (∀ j, (j < k)%nat → max_tokens < sum_tokens counter (drop j segs))
     ∧ ((1 < length segs)%nat → (1 ≤ k)%nat)
     ∧ cut_loop (length segs) ((λ seg, count counter (combined seg)) <$> segs)
         (Z.of_nat (length segs)) max_tokens 0 (sum_tokens counter segs)
       = Ok (k, sum_tokens counter (drop k segs)).
Proof.
  intros Hmax Hover.
  destruct segs as [|seg segs]; [unfold sum_tokens in Hover; simpl in Hover; lia|].
  assert (Hpos : (0 < length (seg :: segs))%nat) by (simpl; lia).
  unfold _trim_segments. revert Hover Hpos.
  generalize (seg :: segs) as all. clear seg segs. intros all Hover Hpos.
  set (counts := (λ s, count counter (combined s)) <$> all).
  assert (Hlen : length counts = length all) by apply length_fmap.
  destruct (cut_loop_spec (length all) counts max_tokens 0
              (foldr Z.add 0 counts))
    as (k & Hrun & Hrange & Hstop & Hbefore); [lia|lia|done|].
  rewrite Hlen in Hrun, Hrange, Hstop.
  unfold counts in Hstop, Hbefore. setoid_rewrite sum_tokens_drop in Hbefore.
  rewrite sum_tokens_drop in Hstop.
  exists k.
  split_and!; [lia| |done|intros j Hj; apply Hbefore; lia| |];
    [| |by rewrite <- sum_tokens_drop].
  - replace (max_tokens <=? 0) with false by lia.
    change (foldr Z.add 0 counts) with (sum_tokens counter all) in *.
    replace (sum_tokens counter all <=? max_tokens) with false by lia.
    rewrite Hrun. cbn [bind].
    destruct (drop k all) as [|kept0 kept] eqn:Hdrop.
    { apply (f_equal length) in Hdrop. rewrite length_drop in Hdrop.
      cbn [length] in Hdrop. lia. }
    rewrite safety_loop_id; [done|].
    destruct Hstop as [->|Hfit]; [left|by right].
    rewrite <- Hdrop, length_drop. lia.
  - intros Hmany. destruct k as [|k]; [|lia].
    rewrite drop_0 in Hstop. lia.
Qed.

Lemma drop_suffix_of {A} (l : list A) k : drop k l `suffix_of` l.
Proof. exists (take k l). by rewrite take_drop. Qed.

Lemma suffix_of_drop {A} (s l : list A) :
  s `suffix_of` l → s = drop (length l - length s) l.
Proof.
  intros [p ->]. rewrite length_app.
  replace (length p + length s - length s)%nat with (length p) by lia.
  by rewrite drop_app_length.
Qed.

Lemma drop_last_singleton {A} (l : list A) x :
  last l = Some x → drop (length l - 1) l = [x].
Proof.
  intros [p ->]%last_Some. rewrite length_app. simpl.
  replace (length p + 1 - 1)%nat with (length p) by lia.
  by rewrite drop_app_length.
Qed.

Lemma drop_nonempty {A} (l : list A) k : (k < length l)%nat → drop k l ≠ [].
Proof.
  intros Hk Hnil. apply (f_equal length) in Hnil.
  rewrite length_drop in Hnil. simpl in Hnil. lia.
Qed.

(** ** Trimming correctness *)

(** C1. For a positive budget the trimmer returns normally; the reported
    token count is the total of the kept segments and is at most the budget
    unless exactly one segment is kept; the kept segments are a contiguous
    suffix of the input. *)
Theorem trim_within_budget_or_single segs max_tokens counter :
  0 < max_tokens →
  ∃ kept truncated kept_tokens,
    _trim_segments segs max_tokens counter = Ok (kept, truncated, kept_tokens)
    ∧ kept_tokens = sum_tokens counter kept
    ∧ (kept_tokens ≤ max_tokens ∨ length kept = 1%nat)
    ∧ kept `suffix_of` segs.
Proof.
  intros Hmax.
  destruct (decide (sum_tokens counter segs ≤ max_tokens)) as [Hfit|Hover].
  - exists segs, false, (sum_tokens counter segs).
    split_and!; [by apply trim_fits|done|by left|done].
  - destruct (trim_cut segs max_tokens counter) as (k & Hk & Hrun & Hstop & _ & _ & _);
      [done|lia|].
    exists (drop k segs), true, (sum_tokens counter (drop k segs)).
    split_and!; [done|done| |apply drop_suffix_of].
    destruct Hstop as [->|Hfit]; [right|by left].
    rewrite length_drop. lia.
Qed.

Lemma trim_within_budget_or_single_witness :
  0 < 3 ∧
  ∃ kept truncated kept_tokens,
    _trim_segments [seg_hello; seg_bye] 3 fallback_counter
      = Ok (kept, truncated, kept_tokens)
    ∧ kept_tokens = sum_tokens fallback_counter kept
    ∧ (kept_tokens ≤ 3 ∨ length kept = 1%nat)
    ∧ kept `suffix_of` [seg_hello; seg_bye].
Proof.
  split; [lia|].
  apply (trim_within_budget_or_single [seg_hello; seg_bye] 3 fallback_counter).
  lia.
Defined.

(** When the flag is set.  For a positive budget [truncated] is true
    exactly when the total token count of the input exceeds the budget; the
    output differs from the input exactly when [truncated] is true and the
    input has more than one segment. *)
Lemma trim_truncated_flag segs max_tokens counter :
  0 < max_tokens →
  ∃ kept truncated kept_tokens,
    _trim_segments segs max_tokens counter = Ok (kept, truncated, kept_tokens)
    ∧ (truncated = true ↔ max_tokens < sum_tokens counter segs)
    ∧ (kept ≠ segs ↔ truncated = true ∧ (1 < length segs)%nat).
Proof.
  intros Hmax.
  destruct (decide (sum_tokens counter segs ≤ max_tokens)) as [Hfit|Hover].
  - exists segs, false, (sum_tokens counter segs).
    split_and!; [by apply trim_fits| |]; split; try done; try lia.
  - destruct (trim_cut segs max_tokens counter)
      as (k & Hk & Hrun & Hstop & _ & Hmany & _); [done|lia|].
    exists (drop k segs), true, (sum_tokens counter (drop k segs)).
    split_and!; [done|split; [lia|done]|]. split.
    + intros Hne. split; [done|].
      destruct (decide (1 < length segs)%nat) as [|Hone]; [done|].
      destruct Hne. replace k with 0%nat by lia. apply drop_0.
    + intros [_ Hlen] Heq. apply (f_equal length) in Heq.
      rewrite length_drop in Heq. specialize (Hmany Hlen). lia.
Qed.

(** C2. The flag is not [output != input]: a lone segment larger than a
    positive budget comes back whole, nothing is dropped, and [truncated] is
    set all the same. *)
Theorem trim_lone_oversized_segment seg max_tokens counter :
  0 < max_tokens < count counter (combined seg) →
  _trim_segments [seg] max_tokens counter
  = Ok ([seg], true, count counter (combined seg)).
Proof.
  intros [Hmax Hover].
  destruct (trim_cut [seg] max_tokens counter)
    as (k & Hk & Hrun & _); [done|cbn; lia|].
  cbn [length] in Hk. replace k with 0%nat in Hrun by lia.
  rewrite Hrun. cbn [drop sum_tokens]. do 2 f_equal.
  unfold sum_tokens. cbn. lia.
Qed.

Lemma trim_lone_oversized_segment_witness :
  0 < 1 < count fallback_counter (combined seg_hello)
  ∧ _trim_segments [seg_hello] 1 fallback_counter = Ok ([seg_hello], true, 4).
Proof.
  assert (H : 0 < 1 < count fallback_counter (combined seg_hello))
    by (vm_compute; split; reflexivity).
  split; [exact H|].
  exact (trim_lone_oversized_segment seg_hello 1 fallback_counter H).
Defined.

(** The note that the prompt then carries: the transcript is said to be
    truncated to the most recent one of one segments. *)
Lemma prompt_note_lone_segment `{PyRuntime} session_id kept_tokens text :
  _build_user_prompt session_id JNull true kept_tokens 1 1 None text
  = join [10]
      [py "Session ID: " ++ session_id;
       py "NOTE: Transcript truncated to the most recent 1 of 1 segments (~"
       ++ str_of_int kept_tokens ++ py " tokens).";
       []; py "Transcript:"; text].
Proof. reflexivity. Qed.

(** C6. With [max_tokens <= 0] budgeting is disabled: the input comes back
    unmodified, [truncated] is false and the count is the exact total. *)
Theorem trim_budget_disabled segs max_tokens counter :
  max_tokens ≤ 0 →
  _trim_segments segs max_tokens counter
  = Ok (segs, false, sum_tokens counter segs).
Proof.
  intros Hoff. destruct segs as [|seg segs]; [reflexivity|].
  unfold _trim_segments.
  destruct (max_tokens <=? 0) eqn:Htest; [reflexivity|lia].
Qed.

Lemma trim_budget_disabled_witness :
  0 ≤ 0 ∧
  _trim_segments [seg_hello; seg_bye] 0 fallback_counter
  = Ok ([seg_hello; seg_bye], false,
        sum_tokens fallback_counter [seg_hello; seg_bye]).
Proof.
  split; [lia|].
  apply (trim_budget_disabled [seg_hello; seg_bye] 0 fallback_counter). lia.
Defined.

(** A last segment larger than a positive budget makes every non-empty
    suffix exceed the budget: token counts are never negative. *)
Lemma oversized_last_every_suffix counter segs seg max_tokens :
  last segs = Some seg →
  max_tokens < count counter (combined seg) →
  ∀ s, s ≠ [] → s `suffix_of` segs → max_tokens < sum_tokens counter s.
Proof.
  intros Hlast Hbig s Hs [p Hp].
  destruct (last s) as [x|] eqn:Hx; [|by apply last_None in Hx].
  assert (x = seg) as ->.
  { rewrite Hp in Hlast. apply last_Some in Hx as [q ->].
    rewrite app_assoc, last_snoc in Hlast. congruence. }
  apply last_Some in Hx as [q ->].
  clear Hp Hs Hlast. induction q as [|y q IH]; simpl.
  - rewrite sum_tokens_cons. pose proof (sum_tokens_nonneg counter []). lia.
  - rewrite sum_tokens_cons. pose proof (count_nonneg counter (combined y)). lia.
Qed.

(** C5. A non-empty input never yields an empty output, whatever the
    budget; and when the greedy cut would consume every segment (every
    non-empty suffix exceeds a positive budget), exactly the last segment is
    kept. *)
Theorem trim_never_empty segs max_tokens counter :
  segs ≠ [] →
  ∃ kept truncated kept_tokens,
    _trim_segments segs max_tokens counter = Ok (kept, truncated, kept_tokens)
    ∧ kept ≠ []
    ∧ (0 < max_tokens →
       (∀ s, s ≠ [] → s `suffix_of` segs → max_tokens < sum_tokens counter s) →
       ∀ seg, last segs = Some seg → kept = [seg]).
Proof.
  intros Hne.
  destruct (decide (max_tokens ≤ 0)) as [Hoff|Hmax].
  { exists segs, false, (sum_tokens counter segs).
    split_and!; [by apply trim_disabled|done|lia]. }
  destruct (decide (sum_tokens counter segs ≤ max_tokens)) as [Hfit|Hover].
  { exists segs, false, (sum_tokens counter segs).
    split_and!; [apply trim_fits; lia|done|].
    intros _ Hall. specialize (Hall segs Hne (drop_suffix_of segs 0)). lia. }
  destruct (trim_cut segs max_tokens counter) as (k & Hk & Hrun & Hstop & _ & _ & _);
    [lia|lia|].
  exists (drop k segs), true, (sum_tokens counter (drop k segs)).
  split_and!; [done|by apply drop_nonempty|].
  intros _ Hall seg Hlast. destruct Hstop as [->|Hfit].
  - by apply drop_last_singleton.
  - specialize (Hall (drop k segs) (drop_nonempty _ _ Hk) (drop_suffix_of _ _)).
    lia.
Qed.

Lemma trim_never_empty_witness :
  [seg_hello; seg_bye] ≠ [] ∧
  ∃ kept truncated kept_tokens,
    _trim_segments [seg_hello; seg_bye] 2 fallback_counter
      = Ok (kept, truncated, kept_tokens)
    ∧ kept ≠ []
    ∧ (0 < 2 →
       (∀ s, s ≠ [] → s `suffix_of` [seg_hello; seg_bye] →
             2 < sum_tokens fallback_counter s) →
       ∀ seg, last [seg_hello; seg_bye] = Some seg → kept = [seg]).
Proof.
  split; [done|].
  apply (trim_never_empty [seg_hello; seg_bye] 2 fallback_counter). done.
Defined.

(** C10. When the input has several segments, exceeds a positive budget
    and some non-empty proper suffix fits the budget, the greedy cut stops
    at the longest fitting suffix; the total recomputed for it equals the
    running total of the cut, so the safety pass removes nothing and that
    suffix is returned. *)
Theorem trim_longest_fitting_suffix segs max_tokens counter :
  0 < max_tokens →
  (1 < length segs)%nat →
  max_tokens < sum_tokens counter segs →
  (∃ s, s ≠ [] ∧ s ≠ segs ∧ s `suffix_of` segs
        ∧ sum_tokens counter s ≤ max_tokens) →
  ∃ k running,
    cut_loop (length segs) ((λ seg, count counter (combined seg)) <$> segs)
      (Z.of_nat (length segs)) max_tokens 0 (sum_tokens counter segs)
    = Ok (k, running)
    ∧ running = sum_tokens counter (drop k segs)
    ∧ safety_loop counter max_tokens (drop k segs) running
      = (drop k segs, running)
    ∧ _trim_segments segs max_tokens counter = Ok (drop k segs, true, running)
    ∧ drop k segs ≠ [] ∧ drop k segs ≠ segs ∧ running ≤ max_tokens
    ∧ ∀ s, s ≠ [] → s `suffix_of` segs → sum_tokens counter s ≤ max_tokens →
           (length s ≤ length (drop k segs))%nat.
Proof.
  intros Hmax Hmany Hover (s0 & Hs0 & _ & Hsuf0 & Hfit0).
  destruct (trim_cut segs max_tokens counter)
    as (k & Hk & Hrun & Hstop & Hbefore & Hk1 & Hcut); [done|done|].
  specialize (Hk1 Hmany).
  assert (Hlongest : ∀ s, s ≠ [] → s `suffix_of` segs →
            sum_tokens counter s ≤ max_tokens →
            (length s ≤ length (drop k segs))%nat).
  { intros s Hs Hsuf Hfit. rewrite length_drop.
    destruct (decide (length segs - length s < k)%nat) as [Hlt|]; [|lia].
    specialize (Hbefore _ Hlt). rewrite <- (suffix_of_drop _ _ Hsuf) in Hbefore.
    lia. }
  assert (Hfit : sum_tokens counter (drop k segs) ≤ max_tokens).
  { destruct Hstop as [Hlast|]; [|done].
    specialize (Hlongest s0 Hs0 Hsuf0 Hfit0). rewrite length_drop in Hlongest.
    assert (length s0 = 1%nat) as Hone.
    { destruct s0; [done|]. simpl in *. lia. }
    assert (s0 = drop k segs) as <-; [|done].
    rewrite (suffix_of_drop _ _ Hsuf0), Hone. by rewrite Hlast. }
  exists k, (sum_tokens counter (drop k segs)).
  split_and!; [done|done| |done|by apply drop_nonempty| |done|done].
  - apply safety_loop_id. by right.
  - intros Heq. apply (f_equal length) in Heq. rewrite length_drop in Heq. lia.
Qed.

Lemma trim_longest_fitting_suffix_witness :
  0 < 3 ∧ (1 < length [seg_hello; seg_hello; seg_bye])%nat
  ∧ 3 < sum_tokens fallback_counter [seg_hello; seg_hello; seg_bye]
  ∧ ∃ k running,
    cut_loop 3
      ((λ seg, count fallback_counter (combined seg))
         <$> [seg_hello; seg_hello; seg_bye])
      3 3 0 (sum_tokens fallback_counter [seg_hello; seg_hello; seg_bye])
    = Ok (k, running)
    ∧ running
      = sum_tokens fallback_counter (drop k [seg_hello; seg_hello; seg_bye])
    ∧ safety_loop fallback_counter 3
        (drop k [seg_hello; seg_hello; seg_bye]) running
      = (drop k [seg_hello; seg_hello; seg_bye], running)
    ∧ _trim_segments [seg_hello; seg_hello; seg_bye] 3 fallback_counter
      = Ok (drop k [seg_hello; seg_hello; seg_bye], true, running)
    ∧ drop k [seg_hello; seg_hello; seg_bye] ≠ []
    ∧ drop k [seg_hello; seg_hello; seg_bye]
      ≠ [seg_hello; seg_hello; seg_bye]
    ∧ running ≤ 3
    ∧ ∀ s, s ≠ [] → s `suffix_of` [seg_hello; seg_hello; seg_bye] →
           sum_tokens fallback_counter s ≤ 3 →
           (length s
            ≤ length (drop k [seg_hello; seg_hello; seg_bye]))%nat.
Proof.
  split_and!; [lia|simpl; lia|vm_compute; reflexivity|].
  apply (trim_longest_fitting_suffix
           [seg_hello; seg_hello; seg_bye] 3 fallback_counter);
    [lia|simpl; lia|vm_compute; reflexivity|].
  exists [seg_bye]. split_and!; [done|done|by exists [seg_hello; seg_hello]|].
  vm_compute. discriminate.
Defined.

(** ** The payload normaliser *)

Lemma strip_delimited first body last :
  isspace first = false → isspace last = false →
  strip ([first] ++ body ++ [last]) = [first] ++ body ++ [last].
Proof.
  intros Hf Hl. unfold strip, rstrip. simpl. rewrite Hf.
  change (first :: body ++ [last]) with ([first] ++ body ++ [last]).
  rewrite !reverse_app. simpl. rewrite Hl.
  rewrite reverse_cons, reverse_app, !reverse_involutive. by simplify_list_eq.
Qed.

Lemma dumps_dict_shape `{PyRuntime} level d :
  ∃ body, dumps level (JDict d) = [123] ++ body ++ [125].
Proof.
  destruct d as [|kv d]; [by exists []|].
  cbn [dumps]. change (py "{") with [123]. change (py "}") with [125].
  match goal with
  | |- ∃ body, [123] ++ ?b ++ ?c ++ ?d ++ [125] = _ => exists (b ++ c ++ d)
  end.
  by rewrite <- !app_assoc.
Qed.

Lemma format_json_dict_strip `{PyRuntime} d :
  strip (_format_json (JDict d)) = _format_json (JDict d)
  ∧ _format_json (JDict d) ≠ [].
Proof.
  unfold _format_json. destruct (dumps_dict_shape 0 d) as [body ->].
  split; [by apply strip_delimited|done].
Qed.

Lemma str_eq_other kind s : kind ≠ s → str_eq (JStr kind) s = false.
Proof. intros Hne. unfold str_eq. by apply bool_decide_eq_false_2. Qed.

(** The fallback where it works.  An event whose kind is a string outside
    the known variants, or whose kind is absent, is rendered under the
    upper-cased kind (under [UNKNOWN] when there is no kind) with the JSON
    rendering of the body minus its [type] field as text; the event is not
    dropped and its text is not empty. *)
Lemma render_unknown_kind `{PyRuntime} (payload : pydict) :
  let ptype := dict_get payload (py "type") JNull in
  ptype = JNull ∨ (∃ kind, ptype = JStr kind ∧ kind ∉ known_kinds) →
  let label :=
    match ptype with
    | JStr (c :: kind) => upper (c :: kind)
    | _ => py "UNKNOWN"
    end in
  let body := _format_json (JDict (without_type payload)) in
  _render_payload payload = Ok (Some (label, body)) ∧ body ≠ [].
Proof.
  intros ptype Hkind label body.
  destruct (format_json_dict_strip (without_type payload)) as [Hstrip Hne].
  fold body in Hstrip, Hne. split; [|done].
  assert (Htail : ∀ prefix, render_tail prefix (Some body) = Some (prefix, body)).
  { intros prefix. unfold render_tail. rewrite Hstrip. by destruct body. }
  unfold _render_payload. fold ptype. fold body. subst label.
  clearbody body ptype.
  destruct Hkind as [->|(kind & -> & Hunknown)].
  - cbn [str_eq in_str_set bind por truthy str_upper]. by rewrite Htail.
  - unfold known_kinds in Hunknown. rewrite !not_elem_of_cons in Hunknown.
    destruct Hunknown as (?&?&?&?&?&?&?&?&?&?&_).
    rewrite !str_eq_other by done. cbn [in_str_set bind].
    rewrite bool_decide_eq_false_2
      by (rewrite !not_elem_of_cons; split_and!; [done|done|apply not_elem_of_nil]).
    destruct kind as [|c kind];
      cbn [por truthy is_empty negb str_upper bind]; by rewrite Htail.
Qed.

Lemma render_unknown_kind_witness :
  (dict_get payload_diff_applied (py "type") JNull = JNull
   ∨ ∃ kind, dict_get payload_diff_applied (py "type") JNull = JStr kind
             ∧ kind ∉ known_kinds)
  ∧ @_render_payload sample_runtime payload_diff_applied
    = Ok (Some (py "DIFF_APPLIED",
                @_format_json sample_runtime (JDict [(py "files", JInt 2)]))).
Proof.
  assert (Hkind : dict_get payload_diff_applied (py "type") JNull = JNull
     ∨ ∃ kind, dict_get payload_diff_applied (py "type") JNull = JStr kind
               ∧ kind ∉ known_kinds).
  { right. exists (py "diff_applied"). split; [reflexivity|].
    apply (bool_decide_unpack _). vm_compute. exact I. }
  split; [exact Hkind|].
  exact (proj1 (@render_unknown_kind sample_runtime payload_diff_applied Hkind)).
Defined.

(** C7. An event whose kind is not a string is not rendered by the
    fallback: a list or an object as kind cannot be hashed for the test of
    the message kinds, and any other kind that is truthy (a number but zero,
    [true]) has no [upper].  The call raises, and no segment is made. *)
Theorem render_non_string_kind_raises `{PyRuntime} (payload : pydict) :
  let ptype := dict_get payload (py "type") JNull in
  (∀ s, ptype ≠ JStr s) →
  truthy ptype = true ∨ (∃ l, ptype = JList l) ∨ (∃ d, ptype = JDict d) →
  _render_payload payload
  = Raise match ptype with
          | JList _ | JDict _ => TypeError
          | _ => AttributeError
          end.
Proof.
  intros ptype Hstr Hkind. unfold _render_payload. fold ptype.
  clearbody ptype.
  destruct ptype as [|b|n|bits|s|l|d];
    try (by destruct (Hstr s)); try reflexivity.
  - by destruct Hkind as [Hk|[[? Hk]|[? Hk]]].
  - destruct Hkind as [Hk|[[? Hk]|[? Hk]]]; [|done..].
    cbn [truthy] in Hk. subst b. reflexivity.
  - destruct Hkind as [Hk|[[? Hk]|[? Hk]]]; [|done..].
    cbn [str_eq in_str_set bind]. unfold por. rewrite Hk. reflexivity.
  - destruct Hkind as [Hk|[[? Hk]|[? Hk]]]; [|done..].
    cbn [str_eq in_str_set bind]. unfold por. rewrite Hk. reflexivity.
Qed.

Lemma render_non_string_kind_raises_witness :
  (∀ s, dict_get payload_numeric_kind (py "type") JNull ≠ JStr s)
  ∧ (truthy (dict_get payload_numeric_kind (py "type") JNull) = true
     ∨ (∃ l, dict_get payload_numeric_kind (py "type") JNull = JList l)
     ∨ (∃ d, dict_get payload_numeric_kind (py "type") JNull = JDict d))
  ∧ @_render_payload sample_runtime payload_numeric_kind = Raise AttributeError.
Proof.
  assert (Hstr : ∀ s, dict_get payload_numeric_kind (py "type") JNull ≠ JStr s)
    by (intros s; vm_compute; discriminate).
  assert (Hkind :
            truthy (dict_get payload_numeric_kind (py "type") JNull) = true
            ∨ (∃ l, dict_get payload_numeric_kind (py "type") JNull = JList l)
            ∨ (∃ d, dict_get payload_numeric_kind (py "type") JNull = JDict d))
    by (left; vm_compute; reflexivity).
  split_and!; [exact Hstr|exact Hkind|].
  exact (@render_non_string_kind_raises sample_runtime payload_numeric_kind
           Hstr Hkind).
Defined.

(** ** The transcript reader *)

Lemma collect_line_undecodable `{PyRuntime} st raw :
  json_loads raw = None → collect_line st raw = Ok st.
Proof. intros Hbad. destruct st as [[segs ts] dg]. simpl. by rewrite Hbad. Qed.

Lemma collect_loop_app `{PyRuntime} pre post st :
  collect_loop (pre ++ post) st
  = bind (collect_loop pre st) (collect_loop post).
Proof.
  revert st. induction pre as [|raw pre IH]; intros st; [done|].
  simpl. destruct (collect_line st raw); simpl; auto.
Qed.

Lemma collect_loop_skip `{PyRuntime} pre raw post st :
  json_loads raw = None →
  collect_loop (pre ++ raw :: post) st = collect_loop (pre ++ post) st.
Proof.
  intros Hbad. rewrite !collect_loop_app.
  destruct (collect_loop pre st) as [st'| |]; simpl; [|done|done].
  by rewrite collect_line_undecodable.
Qed.

Lemma collect_loop_all_undecodable `{PyRuntime} lines st :
  Forall (λ raw, json_loads raw = None) lines → collect_loop lines st = Ok st.
Proof.
  induction 1 as [|raw lines Hbad _ IH]; [done|].
  simpl. by rewrite collect_line_undecodable.
Qed.

(** A line that [json.loads] rejects is skipped: the read gives what it
    gives without the line, and a transcript made only of such lines gives
    no segment, no timestamp and the digest of the empty input. *)
Lemma collect_skips_undecodable `{PyRuntime} pre raw post :
  json_loads raw = None →
  _collect_segments (pre ++ raw :: post) = _collect_segments (pre ++ post).
Proof. intros Hbad. unfold _collect_segments. by rewrite collect_loop_skip. Qed.

Lemma collect_only_undecodable `{PyRuntime} lines :
  Forall (λ raw, json_loads raw = None) lines →
  _collect_segments lines = Ok ([], None, sha256_hexdigest []).
Proof.
  intros Hall. unfold _collect_segments.
  by rewrite collect_loop_all_undecodable.
Qed.

(** The digest is fed the bytes of the accepted segments, in order. *)
Lemma collect_line_digest `{PyRuntime} segs ts dg raw segs' ts' dg' :
  collect_line (segs, ts, dg) raw = Ok (segs', ts', dg') →
  ∃ new, segs' = segs ++ new ∧ dg' = dg ++ digest_input new.
Proof.
  unfold collect_line. destruct (json_loads raw) as [data|]; last first.
  { intros [= <- <- <-]. exists []. by rewrite !app_nil_r. }
  destruct (py_get data (py "payload")) as [payload0| |]; simpl; [|done|done].
  destruct (py_get (por payload0 (JDict [])) (py "type")) as [ptype| |];
    simpl; [|done|done].
  destruct (py_get (por payload0 (JDict [])) (py "timestamp"))
    as [ts_payload| |]; simpl; [|done|done].
  destruct (if truthy ts_payload then Ok ts_payload
            else py_get data (py "timestamp")) as [ts_raw| |];
    simpl; [|done|done].
  destruct (_parse_timestamp ts_raw) as [t| |]; simpl; [|done|done].
  destruct (por payload0 (JDict [])) as [| | | | | |payload]; try done.
  destruct (_render_payload payload) as [[[h x]|]| |]; simpl; [| |done|done].
  - intros [= <- <- <-]. eexists [_]. split; [done|].
    unfold digest_input. simpl. by rewrite app_nil_r.
  - intros [= <- <- <-]. exists []. by rewrite !app_nil_r.
Qed.

Lemma collect_loop_digest `{PyRuntime} lines segs ts dg segs' ts' dg' :
  collect_loop lines (segs, ts, dg) = Ok (segs', ts', dg') →
  ∃ new, segs' = segs ++ new ∧ dg' = dg ++ digest_input new.
Proof.
  revert segs ts dg. induction lines as [|raw lines IH]; intros segs ts dg.
  { intros [= <- <- <-]. exists []. by rewrite !app_nil_r. }
  cbn [collect_loop].
  destruct (collect_line (segs, ts, dg) raw) as [[[s1 t1] d1]| |] eqn:Hl;
    cbn [bind]; [|done|done].
  intros Hrest. apply collect_line_digest in Hl as (new1 & -> & ->).
  apply IH in Hrest as (new2 & -> & ->).
  exists (new1 ++ new2). unfold digest_input.
  by rewrite bind_app, !app_assoc.
Qed.

Lemma collect_segments_digest `{PyRuntime} lines segs ts dg :
  _collect_segments lines = Ok (segs, ts, dg) →
  dg = sha256_hexdigest (digest_input segs).
Proof.
  unfold _collect_segments.
  destruct (collect_loop lines ([], None, [])) as [[[s t] d]| |] eqn:Hloop;
    simpl; [|done|done].
  intros [= <- <- <-]. apply collect_loop_digest in Hloop as (new & -> & ->).
  done.
Qed.

(** ** The digest *)

Ltac byte_lia := try done; try lia; Z.div_mod_to_equations; lia.

Lemma utf8_cp_no_nul c : c ≠ 0 → 0 ∉ utf8_cp c.
Proof.
  intros Hc. unfold utf8_cp.
  repeat case_match; rewrite ?not_elem_of_cons; split_and?;
    try apply not_elem_of_nil; byte_lia.
Qed.

Lemma utf8_ignore_no_nul s : 0 ∉ s → 0 ∉ utf8_ignore s.
Proof.
  unfold utf8_ignore. induction s as [|c s IH]; [done|].
  rewrite not_elem_of_cons. intros [Hc Hs]. cbn [mbind list_bind].
  rewrite not_elem_of_app. split; [apply utf8_cp_no_nul; lia|by apply IH].
Qed.

Lemma app_pivot_inj {A} (x : A) (l1 r1 l2 r2 : list A) :
  x ∉ l1 → x ∉ l2 → l1 ++ x :: r1 = l2 ++ x :: r2 → l1 = l2 ∧ r1 = r2.
Proof.
  revert l2. induction l1 as [|a l1 IH]; intros [|b l2] H1 H2 Heq;
    simplify_list_eq.
  - done.
  - by apply not_elem_of_cons in H2 as [[] _].
  - by apply not_elem_of_cons in H1 as [[] _].
  - apply not_elem_of_cons in H1 as [_ H1].
    apply not_elem_of_cons in H2 as [_ H2].
    destruct (IH l2 H1 H2) as [-> ->]; done.
Qed.

(** UTF-8 is a prefix code on scalar values. *)
Lemma utf8_cp_inj c1 c2 r1 r2 :
  scalar c1 → scalar c2 →
  utf8_cp c1 ++ r1 = utf8_cp c2 ++ r2 → c1 = c2 ∧ r1 = r2.
Proof.
  unfold scalar, utf8_cp. intros H1 H2.
  repeat case_match; intros Heq; simplify_list_eq; try lia; split; byte_lia.
Qed.

Lemma utf8_ignore_inj s1 s2 :
  Forall scalar s1 → Forall scalar s2 →
  utf8_ignore s1 = utf8_ignore s2 → s1 = s2.
Proof.
  unfold utf8_ignore. intros H1. revert s2.
  induction H1 as [|c1 s1 Hc1 _ IH]; intros s2 H2 Heq.
  - destruct H2 as [|c2 s2 Hc2 _]; [done|]. exfalso.
    cbn [mbind list_bind] in Heq. revert Heq. unfold scalar, utf8_cp in *.
    repeat case_match; intros Heq; simplify_list_eq; byte_lia.
  - destruct H2 as [|c2 s2 Hc2 Hs2].
    + exfalso. cbn [mbind list_bind] in Heq. revert Heq.
      unfold scalar, utf8_cp in *.
      repeat case_match; intros Heq; simplify_list_eq; byte_lia.
    + cbn [mbind list_bind] in Heq.
      apply utf8_cp_inj in Heq as [-> Heq]; [|done|done].
      f_equal. by apply IH.
Qed.

Lemma digest_input_pairs segs1 segs2 :
  segment_pairs segs1 = segment_pairs segs2 →
  digest_input segs1 = digest_input segs2.
Proof.
  unfold segment_pairs, digest_input. revert segs2.
  induction segs1 as [|a segs1 IH]; intros [|b segs2] Heq; try done.
  rewrite !fmap_cons in Heq. injection Heq as Hh Ht Hrest.
  cbn [mbind list_bind]. by rewrite Hh, Ht, (IH _ Hrest).
Qed.

(** C3 as stated (the digest input determines the segment stream) fails:
    the reader feeds header, one NUL byte and text for each segment with
    nothing between segments, and NUL may occur in a text.  Reading
    [line_b; line_bb], the same two lines in the other order, and [line_b]
    three times gives three different segment streams and one and the same
    digest input; so do the pairs [("A", "B\0")] and [("A\0B", "")]. *)
Lemma digest_input_collision_counterexample :
  ∃ bytes,
    @collect_loop sample_runtime [line_b; line_bb] ([], None, [])
      = Ok ([seg_b; seg_bb], None, bytes)
    ∧ @collect_loop sample_runtime [line_bb; line_b] ([], None, [])
      = Ok ([seg_bb; seg_b], None, bytes)
    ∧ @collect_loop sample_runtime [line_b; line_b; line_b] ([], None, [])
      = Ok ([seg_b; seg_b; seg_b], None, bytes)
    ∧ segment_pairs [seg_b; seg_bb] ≠ segment_pairs [seg_bb; seg_b]
    ∧ segment_pairs [seg_b; seg_bb] ≠ segment_pairs [seg_b; seg_b; seg_b]
    ∧ digest_input [mk_segment (py "A") (py "B" ++ [0]) JNull]
      = digest_input [mk_segment (py "A" ++ [0] ++ py "B") [] JNull].
Proof.
  eexists. split_and!; [vm_compute; reflexivity|vm_compute; reflexivity
    |vm_compute; reflexivity|discriminate|discriminate|reflexivity].
Qed.

(** C3, amended. The digest of a transcript is the hash of its digest
    input, which depends only on the [(header, text)] pairs of the segments
    in their order: transcripts with the same pairs in the same order have
    the same digest input and the same digest.  Conversely, two
    one-segment transcripts whose headers hold no NUL and whose strings are
    made of Unicode scalar values have the same digest input only if they
    have the same header and the same text. *)
Theorem digest_input_of_transcripts `{PyRuntime}
    lines1 lines2 segs1 segs2 ts1 ts2 dg1 dg2 :
  _collect_segments lines1 = Ok (segs1, ts1, dg1) →
  _collect_segments lines2 = Ok (segs2, ts2, dg2) →
  dg1 = sha256_hexdigest (digest_input segs1)
  ∧ dg2 = sha256_hexdigest (digest_input segs2)
  ∧ (segment_pairs segs1 = segment_pairs segs2 →
     digest_input segs1 = digest_input segs2 ∧ dg1 = dg2)
  ∧ (∀ s1 s2, segs1 = [s1] → segs2 = [s2] →
       0 ∉ header s1 → 0 ∉ header s2 →
       Forall scalar (header s1 ++ text s1) →
       Forall scalar (header s2 ++ text s2) →
       digest_input segs1 = digest_input segs2 →
       header s1 = header s2 ∧ text s1 = text s2).
Proof.
  intros ->%collect_segments_digest ->%collect_segments_digest.
  split_and!; [done|done| |].
  - intros Hpairs%digest_input_pairs. by rewrite Hpairs.
  - intros s1 s2 -> -> Hnul1 Hnul2 [Hh1 Ht1]%Forall_app [Hh2 Ht2]%Forall_app.
    unfold digest_input. cbn [mbind list_bind]. rewrite !app_nil_r.
    intros [Hh Ht]%app_pivot_inj; [|by apply utf8_ignore_no_nul..].
    split; by apply utf8_ignore_inj.
Qed.

Lemma digest_input_of_transcripts_witness :
  @_collect_segments sample_runtime [line_b]
    = Ok ([seg_b], None, hex_dump (digest_input [seg_b]))
  ∧ hex_dump (digest_input [seg_b]) = hex_dump (digest_input [seg_b])
  ∧ (segment_pairs [seg_b] = segment_pairs [seg_b] →
     digest_input [seg_b] = digest_input [seg_b]
     ∧ hex_dump (digest_input [seg_b]) = hex_dump (digest_input [seg_b]))
  ∧ (∀ s1 s2, [seg_b] = [s1] → [seg_b] = [s2] →
       0 ∉ header s1 → 0 ∉ header s2 →
       Forall scalar (header s1 ++ text s1) →
       Forall scalar (header s2 ++ text s2) →
       digest_input [seg_b] = digest_input [seg_b] →
       header s1 = header s2 ∧ text s1 = text s2).
Proof.
  assert (Hrun : @_collect_segments sample_runtime [line_b]
            = Ok ([seg_b], None, hex_dump (digest_input [seg_b])))
    by (vm_compute; reflexivity).
  split; [exact Hrun|].
  pose proof (@digest_input_of_transcripts sample_runtime
                [line_b] [line_b] [seg_b] [seg_b] None None
                (hex_dump (digest_input [seg_b]))
                (hex_dump (digest_input [seg_b])) Hrun Hrun) as (_ & H2 & H3 & H4).
  split_and!; [exact H2|exact H3|exact H4].
Defined.

(** ** Lines that are not records *)

(** C8. A line that decodes to JSON but not to an object is not skipped:
    [data.get] raises [AttributeError] and the read is aborted.  Here the
    transcript [line_b] reads to one segment, and the same transcript
    followed by the line [[]] raises. *)
Theorem collect_aborts_on_non_record :
  @json_loads sample_runtime line_array = Some (JList [])
  ∧ @_collect_segments sample_runtime [line_b]
    = Ok ([seg_b], None, hex_dump (digest_input [seg_b]))
  ∧ @_collect_segments sample_runtime [line_b; line_array]
    = Raise AttributeError.
Proof. split_and!; vm_compute; reflexivity. Qed.

(** The same for every runtime: after a prefix that reads normally, a line
    that decodes to anything but an object aborts the read. *)
Lemma collect_non_record_raises `{PyRuntime} pre raw post st data :
  collect_loop pre ([], None, []) = Ok st →
  json_loads raw = Some data →
  (∀ d, data ≠ JDict d) →
  _collect_segments (pre ++ raw :: post) = Raise AttributeError.
Proof.
  intros Hpre Hdata Hshape. unfold _collect_segments.
  rewrite collect_loop_app, Hpre. cbn [bind collect_loop].
  destruct st as [[segs ts] dg]. unfold collect_line. rewrite Hdata.
  destruct data; try done. by destruct (Hshape d).
Qed.

(** ** Dictionaries *)

Lemma dict_get_set_eq d key value dflt :
  dict_get (dict_set d key value) key dflt = value.
Proof.
  induction d as [|[k v] d IH]; simpl.
  - by rewrite bool_decide_eq_true_2.
  - destruct (bool_decide (k = key)) eqn:Hk; simpl; rewrite Hk; [done|apply IH].
Qed.

Lemma dict_get_set_ne d key key' value dflt :
  key ≠ key' →
  dict_get (dict_set d key value) key' dflt = dict_get d key' dflt.
Proof.
  intros Hne. induction d as [|[k v] d IH]; simpl.
  - by rewrite bool_decide_eq_false_2.
  - destruct (bool_decide (k = key)) eqn:Hk; simpl.
    + apply bool_decide_eq_true_1 in Hk as ->.
      by rewrite !bool_decide_eq_false_2.
    + by rewrite IH.
Qed.


(** ** Computations of the model end *)











(** ** One transcript *)

Lemma bindM_inv {A B} (m : M A) (k : A → M B) st b st' :
  bindM m k st = (Ok b, st') →
  ∃ a st1, m st = (Ok a, st1) ∧ k a st1 = (Ok b, st').
Proof.
  unfold bindM. destruct (m st) as [[a| |] st1]; [eauto|done|done].
Qed.






Ltac py_neq := let H := fresh in intros H; vm_compute in H; discriminate H.

Lemma lift_inv {A} (r : result A) st a st' :
  lift r st = (Ok a, st') → r = Ok a ∧ st' = st.
Proof. by intros [= -> ->]. Qed.


(** ** The batch *)

Section batch.
Context `{PyRuntime} `{Services}.
Variables (env : Env) (model : list Z) (max_tokens : Z)
          (summary_dir : list Z) (label_map : json).


End batch.




(** ** The staleness scan *)

Lemma scan_inv `{PyRuntime} env index_data force sessions acc to_process :
  scan env index_data force sessions acc = Ok to_process →
  ∃ sel, to_process = acc ++ sel
       ∧ sel `sublist_of` sessions
       ∧ ∀ path, path ∈ sessions →
           ∃ stale, needs_refresh env index_data force path = Ok stale
                    ∧ (stale = true → path ∈ sel).
Proof.
  revert acc. induction sessions as [|p sessions IH]; intros acc.
  { intros [= <-]. exists []. rewrite app_nil_r. split_and!; [done|done|].
    intros path Hin. by apply elem_of_nil in Hin. }
  cbn [scan].
  destruct (needs_refresh env index_data force p) as [stale| |] eqn:Hp;
    cbn [bind]; [|done|done].
  intros (sel & -> & Hsub & Hall)%IH. destruct stale.
  - exists (p :: sel). rewrite <- app_assoc. split_and!; [done|by constructor|].
    intros path [->|Hin]%elem_of_cons.
    + exists true. split; [done|]. intros _. by left.
    + destruct (Hall path Hin) as (b & ? & Hb). exists b. split; [done|].
      intros Hb'. right. auto.
  - exists sel. split_and!; [done|by constructor|].
    intros path [->|Hin]%elem_of_cons; [by exists false|auto].
Qed.





(** ** refresh_summaries *)


(** The selection is outside the guard of the batch: when it raises, the
    run raises with it, nothing is attempted and nothing is written. *)
Lemma refresh_selection_raises `{PyRuntime} `{Services} env summary_dir model
    max_tokens limit force st all e :
  sorted_sessions env = Ok all →
  scan env (loaded_index st) force (apply_limit limit all) [] = Raise e →
  refresh_summaries env summary_dir model max_tokens limit force st
  = (Raise e, st).
Proof.
  intros Hsorted Hscan. unfold refresh_summaries.
  unfold bindM at 1, load_index. fold (loaded_index st).
  unfold bindM at 1, lift. rewrite Hsorted.
  unfold bindM at 1. by rewrite Hscan.
Qed.








(* ================================================================== *)
(** * Further properties of the code *)

(** ** The trimmer *)

(** X1. Trimming is idempotent: trimming the kept segments again with the
    same budget keeps all of them and reports the same token count. *)
Theorem trim_idempotent segs max_tokens counter kept truncated kept_tokens :
  _trim_segments segs max_tokens counter = Ok (kept, truncated, kept_tokens) →
  ∃ truncated',
    _trim_segments kept max_tokens counter = Ok (kept, truncated', kept_tokens).
Proof.
  intros Hrun.
  destruct (decide (max_tokens ≤ 0)) as [Hoff|Hon].
  { rewrite trim_disabled in Hrun by done. injection Hrun as <- <- <-.
    exists false. by apply trim_disabled. }
  destruct (decide (sum_tokens counter segs ≤ max_tokens)) as [Hfit|Hover].
  { rewrite trim_fits in Hrun by lia. injection Hrun as <- <- <-.
    exists false. apply trim_fits; lia. }
  destruct (trim_cut segs max_tokens counter)
    as (k & Hk & Hcut & Hstop & _); [lia|lia|].
  rewrite Hcut in Hrun. injection Hrun as <- <- <-.
  destruct (decide (sum_tokens counter (drop k segs) ≤ max_tokens)) as [Hfit|Hbig].
  { exists false. apply trim_fits; lia. }
  destruct Hstop as [->|?]; [|lia].
  destruct (trim_cut (drop (length segs - 1) segs) max_tokens counter)
    as (k' & Hk' & Hcut' & _); [lia|lia|].
  rewrite length_drop in Hk'. replace k' with 0%nat in Hcut' by lia.
  rewrite drop_0 in Hcut'. by exists true.
Qed.

Lemma trim_idempotent_witness :
  _trim_segments [seg_hello; seg_bye] 3 fallback_counter = Ok ([seg_bye], true, 3)
  ∧ ∃ truncated',
      _trim_segments [seg_bye] 3 fallback_counter = Ok ([seg_bye], truncated', 3).
Proof.
  assert (Hrun : _trim_segments [seg_hello; seg_bye] 3 fallback_counter
                 = Ok ([seg_bye], true, 3)) by reflexivity.
  split; [exact Hrun|].
  exact (trim_idempotent [seg_hello; seg_bye] 3 fallback_counter
           [seg_bye] true 3 Hrun).
Defined.

(** X2. A larger positive budget never keeps less: the segments kept under
    the smaller budget are a suffix of those kept under the larger one. *)
Theorem trim_monotone segs max1 max2 counter kept1 t1 n1 kept2 t2 n2 :
  0 < max1 → max1 ≤ max2 →
  _trim_segments segs max1 counter = Ok (kept1, t1, n1) →
  _trim_segments segs max2 counter = Ok (kept2, t2, n2) →
  kept1 `suffix_of` kept2.
Proof.
  intros Hpos Hle Hrun1 Hrun2.
  destruct (decide (sum_tokens counter segs ≤ max2)) as [Hfit2|Hover2].
  { rewrite trim_fits in Hrun2 by lia. injection Hrun2 as <- <- <-.
    destruct (decide (sum_tokens counter segs ≤ max1)) as [Hfit1|Hover1].
    - rewrite trim_fits in Hrun1 by lia. by injection Hrun1 as <- <- <-.
    - destruct (trim_cut segs max1 counter) as (k & _ & Hcut & _); [lia|lia|].
      rewrite Hcut in Hrun1. injection Hrun1 as <- <- <-.
      apply drop_suffix_of. }
  destruct (trim_cut segs max1 counter)
    as (k1 & Hk1 & Hcut1 & Hstop1 & _); [lia|lia|].
  destruct (trim_cut segs max2 counter)
    as (k2 & Hk2 & Hcut2 & _ & Hbefore2 & _); [lia|lia|].
  rewrite Hcut1 in Hrun1. injection Hrun1 as <- <- <-.
  rewrite Hcut2 in Hrun2. injection Hrun2 as <- <- <-.
  assert (k2 ≤ k1)%nat.
  { destruct (decide (k2 ≤ k1)%nat) as [|Hgt]; [done|].
    specialize (Hbefore2 k1 ltac:(lia)). destruct Hstop1; lia. }
  replace k1 with (k2 + (k1 - k2))%nat by lia. rewrite <- drop_drop.
  apply drop_suffix_of.
Qed.

Lemma trim_monotone_witness :
  0 < 3 ∧ 3 ≤ 8
  ∧ _trim_segments [seg_hello; seg_hello; seg_bye] 3 fallback_counter
    = Ok ([seg_bye], true, 3)
  ∧ _trim_segments [seg_hello; seg_hello; seg_bye] 8 fallback_counter
    = Ok ([seg_hello; seg_bye], true, 7)
  ∧ [seg_bye] `suffix_of` [seg_hello; seg_bye].
Proof.
  assert (H1 : _trim_segments [seg_hello; seg_hello; seg_bye] 3 fallback_counter
               = Ok ([seg_bye], true, 3)) by reflexivity.
  assert (H2 : _trim_segments [seg_hello; seg_hello; seg_bye] 8 fallback_counter
               = Ok ([seg_hello; seg_bye], true, 7)) by reflexivity.
  split_and!; [lia|lia|exact H1|exact H2|].
  apply (trim_monotone [seg_hello; seg_hello; seg_bye] 3 8 fallback_counter
           [seg_bye] true 3 [seg_hello; seg_bye] true 7); [lia|lia|exact H1|exact H2].
Defined.

Lemma sum_tokens_fallback_length counter segs :
  encoder counter = None →
  Z.of_nat (length segs) ≤ sum_tokens counter segs.
Proof.
  intros Henc. induction segs as [|seg segs IH]; [done|].
  rewrite sum_tokens_cons. cbn [length].
  assert (1 ≤ count counter (combined seg)) by (unfold count; rewrite Henc; lia).
  lia.
Qed.

(** X3. Without tiktoken every segment counts for at least one token, so a
    positive budget of [n] tokens keeps at most [n] segments. *)
Theorem trim_fallback_segment_bound segs max_tokens counter kept truncated
    kept_tokens :
  encoder counter = None →
  0 < max_tokens →
  _trim_segments segs max_tokens counter = Ok (kept, truncated, kept_tokens) →
  Z.of_nat (length kept) ≤ max_tokens.
Proof.
  intros Henc Hpos Hrun.
  destruct (decide (sum_tokens counter segs ≤ max_tokens)) as [Hfit|Hover].
  { rewrite trim_fits in Hrun by lia. injection Hrun as <- <- <-.
    pose proof (sum_tokens_fallback_length counter segs Henc). lia. }
  destruct (trim_cut segs max_tokens counter)
    as (k & Hk & Hcut & Hstop & _); [lia|lia|].
  rewrite Hcut in Hrun. injection Hrun as <- <- <-.
  destruct Hstop as [->|Hfit].
  - rewrite length_drop. lia.
  - pose proof (sum_tokens_fallback_length counter (drop k segs) Henc). lia.
Qed.

Lemma trim_fallback_segment_bound_witness :
  encoder fallback_counter = None ∧ 0 < 8
  ∧ _trim_segments [seg_hello; seg_hello; seg_bye] 8 fallback_counter
    = Ok ([seg_hello; seg_bye], true, 7)
  ∧ Z.of_nat (length [seg_hello; seg_bye]) ≤ 8.
Proof.
  assert (H2 : _trim_segments [seg_hello; seg_hello; seg_bye] 8 fallback_counter
               = Ok ([seg_hello; seg_bye], true, 7)) by reflexivity.
  split_and!; [reflexivity|lia|exact H2|].
  apply (trim_fallback_segment_bound [seg_hello; seg_hello; seg_bye] 8
           fallback_counter [seg_hello; seg_bye] true 7);
    [reflexivity|lia|exact H2].
Defined.

(** ** Strings *)

Lemma lstrip_suffix s : ∃ p, s = p ++ lstrip s.
Proof.
  induction s as [|c s [p IH]]; [by exists []|]. simpl.
  destruct (isspace c); [|by exists []]. exists (c :: p). by rewrite IH at 1.
Qed.

Lemma lstrip_fixed c s : isspace c = false → lstrip (c :: s) = c :: s.
Proof. intros Hc. simpl. by rewrite Hc. Qed.

Lemma lstrip_head s c r : lstrip s = c :: r → isspace c = false.
Proof.
  induction s as [|a s IH]; [done|]. simpl.
  destruct (isspace a) eqn:Ha; [done|]. by intros [= <- <-].
Qed.

Lemma lstrip_idem s : lstrip (lstrip s) = lstrip s.
Proof.
  destruct (lstrip s) as [|c r] eqn:Hs; [done|].
  apply lstrip_fixed. by eapply lstrip_head.
Qed.

Lemma rstrip_prefix s : ∃ q, s = rstrip s ++ q.
Proof.
  unfold rstrip. destruct (lstrip_suffix (reverse s)) as [p Hp].
  exists (reverse p). rewrite <- reverse_app, <- Hp. by rewrite reverse_involutive.
Qed.

Lemma rstrip_idem s : rstrip (rstrip s) = rstrip s.
Proof. unfold rstrip. by rewrite reverse_involutive, lstrip_idem. Qed.

Lemma lstrip_rstrip s : lstrip s = s → lstrip (rstrip s) = rstrip s.
Proof.
  intros Hs. destruct (rstrip_prefix s) as [q Hq].
  destruct (rstrip s) as [|c r] eqn:Hr; [done|].
  apply lstrip_fixed. rewrite Hq in Hs. by eapply lstrip_head.
Qed.

(** Stripping twice is stripping once. *)
Lemma strip_idem s : strip (strip s) = strip s.
Proof.
  unfold strip. rewrite (lstrip_rstrip (lstrip s)) by apply lstrip_idem.
  apply rstrip_idem.
Qed.

Lemma split_cons_sep sep s : split sep (sep :: s) = [] :: split sep s.
Proof. simpl. by rewrite Z.eqb_refl. Qed.

Lemma split_nonempty sep s : split sep s ≠ [].
Proof. destruct s as [|c s]; simpl; [done|]. repeat case_match; done. Qed.

Lemma split_app sep a b :
  split sep (a ++ sep :: b) = split sep a ++ split sep b.
Proof.
  induction a as [|c a IH]; [apply split_cons_sep|].
  cbn [app split]. rewrite IH.
  destruct (c =? sep); [done|].
  pose proof (split_nonempty sep a). by destruct (split sep a).
Qed.

Lemma split_no_sep sep s : sep ∉ s → split sep s = [s].
Proof.
  induction s as [|c s IH]; [done|].
  rewrite not_elem_of_cons. intros [Hc Hs]. simpl.
  replace (c =? sep) with false by lia. by rewrite IH.
Qed.

Lemma join_cons_cons sep p q rest :
  join sep (p :: q :: rest) = p ++ sep ++ join sep (q :: rest).
Proof. done. Qed.

(** [sep.join(s.split(sep)) == s] *)
Lemma join_split sep s : join [sep] (split sep s) = s.
Proof.
  induction s as [|c s IH]; [done|]. simpl.
  destruct (c =? sep) eqn:Hc.
  - apply Z.eqb_eq in Hc as ->.
    pose proof (split_nonempty sep s).
    destruct (split sep s) as [|q rest] eqn:Hs; [done|].
    rewrite join_cons_cons, IH. done.
  - pose proof (split_nonempty sep s).
    destruct (split sep s) as [|q rest] eqn:Hs; [done|].
    destruct rest as [|q' rest].
    + simpl in *. by rewrite IH.
    + rewrite join_cons_cons in IH |- *. by rewrite <- IH.
Qed.

Lemma split_join sep parts :
  parts ≠ [] → Forall (λ p, sep ∉ p) parts →
  split sep (join [sep] parts) = parts.
Proof.
  intros Hne Hparts. induction Hparts as [|p parts Hp Hparts IH]; [done|].
  destruct parts as [|q parts].
  - simpl. by apply split_no_sep.
  - rewrite join_cons_cons. cbn [app]. rewrite split_app, IH by done.
    by rewrite split_no_sep.
Qed.

Lemma join_app sep l1 l2 :
  l1 ≠ [] → l2 ≠ [] → join sep (l1 ++ l2) = join sep l1 ++ sep ++ join sep l2.
Proof.
  intros H1 H2. induction l1 as [|p l1 IH]; [done|].
  destruct l1 as [|q l1].
  - destruct l2; [done|]. done.
  - cbn [app]. rewrite !join_cons_cons. cbn [app] in IH. rewrite IH by done.
    by rewrite <- !app_assoc.
Qed.

Lemma join_drop_suffix sep parts k :
  join sep (drop k parts) `suffix_of` join sep parts.
Proof.
  destruct (decide (k = 0%nat)) as [->|Hk]; [by rewrite drop_0|].
  destruct (decide (k < length parts)%nat) as [Hlt|Hge].
  - rewrite <- (take_drop k parts) at 2. rewrite join_app.
    + eexists. by rewrite app_assoc.
    + intros Hnil. apply (f_equal length) in Hnil.
      rewrite length_take in Hnil. simpl in Hnil. lia.
    + by apply drop_nonempty.
  - rewrite drop_ge by lia. by exists (join sep parts); rewrite app_nil_r.
Qed.

(** ** Session identities *)

Lemma rfind_dot_none name : 46 ∉ name → rfind_dot name = None.
Proof.
  induction name as [|c name IH]; [done|].
  rewrite not_elem_of_cons. intros [Hc Hname]. simpl. rewrite IH by done.
  by replace (c =? 46) with false by lia.
Qed.

Lemma rfind_dot_app a b :
  46 ∉ b → rfind_dot (a ++ 46 :: b) = Some (length a).
Proof.
  intros Hb. induction a as [|c a IH].
  - simpl. by rewrite rfind_dot_none.
  - cbn [app rfind_dot]. by rewrite IH.
Qed.

Lemma path_name_of_file dir name :
  47 ∉ name → path_name (dir ++ py "/" ++ name) = name.
Proof.
  intros Hname. unfold path_name. change (py "/") with [47].
  rewrite bool_decide_eq_false_2.
  - cbn [app].
    rewrite split_app, (split_no_sep 47 name) by done. by rewrite last_snoc.
  - intros Heq. assert (Hin : 47 ∈ dir ++ [47] ++ name).
    { rewrite !elem_of_app. right. left. apply list_elem_of_singleton. done. }
    rewrite Heq in Hin. revert Hin. apply (bool_decide_unpack _). by vm_compute.
Qed.

Lemma path_name_plain name :
  name ≠ py "." → 47 ∉ name → path_name name = name.
Proof.
  intros Hdot Hname. unfold path_name.
  rewrite bool_decide_eq_false_2 by done. by rewrite split_no_sep.
Qed.

Lemma path_stem_of_file dir name :
  name ≠ py "." → 47 ∉ name →
  path_stem (dir ++ py "/" ++ name) = path_stem name.
Proof.
  intros Hdot Hname. unfold path_stem.
  by rewrite path_name_of_file, path_name_plain.
Qed.

Lemma jsonl_not_dot stem : stem ++ py ".jsonl" ≠ py ".".
Proof.
  intros Heq. apply (f_equal length) in Heq. rewrite length_app in Heq.
  cbn in Heq. lia.
Qed.

(** X4. The session identity is read off the file name alone: the
    directory of a transcript does not matter.  The name is a proper final
    component: not empty, not [.], and without a slash. *)
Theorem derive_session_id_ignores_directory dir name :
  name ≠ [] → name ≠ py "." → 47 ∉ name →
  _derive_session_id (dir ++ py "/" ++ name) = _derive_session_id name.
Proof.
  intros _ Hdot Hname. unfold _derive_session_id. by rewrite path_stem_of_file.
Qed.

Lemma derive_session_id_ignores_directory_witness :
  py "s.jsonl" ≠ [] ∧ py "s.jsonl" ≠ py "." ∧ (47 ∉ py "s.jsonl")
  ∧ _derive_session_id (py "sessions/x" ++ py "/" ++ py "s.jsonl")
    = _derive_session_id (py "s.jsonl").
Proof.
  assert (Hne : py "s.jsonl" ≠ []) by (vm_compute; discriminate).
  assert (Hdot : py "s.jsonl" ≠ py ".") by (vm_compute; discriminate).
  assert (H : 47 ∉ py "s.jsonl") by (apply (bool_decide_unpack _); by vm_compute).
  split_and!; [exact Hne|exact Hdot|exact H|].
  exact (derive_session_id_ignores_directory (py "sessions/x") (py "s.jsonl")
           Hne Hdot H).
Defined.

Lemma path_stem_jsonl stem :
  stem ≠ [] → 47 ∉ stem → path_stem (stem ++ py ".jsonl") = stem.
Proof.
  intros Hne Hslash. unfold path_stem.
  assert (Hname : path_name (stem ++ py ".jsonl") = stem ++ py ".jsonl").
  { apply path_name_plain; [apply jsonl_not_dot|].
    rewrite not_elem_of_app. split; [done|].
    apply (bool_decide_unpack _). by vm_compute. }
  rewrite Hname. change (py ".jsonl") with (46 :: py "jsonl").
  rewrite rfind_dot_app by (apply (bool_decide_unpack _); by vm_compute).
  rewrite length_app.
  change (length (46 :: py "jsonl")) with 6%nat.
  assert ((0 <? Z.of_nat (length stem))
          && (Z.of_nat (length stem) <? Z.of_nat (length stem + 6) - 1)
          = true) as ->.
  { apply andb_true_iff. split; apply Z.ltb_lt; [|lia].
    destruct stem; [done|]. cbn [length]. lia. }
  by rewrite take_app_length.
Qed.

(** X5. A transcript named [<prefix>-<a>-<b>-<c>-<d>-<e>.jsonl], with five
    non-empty groups that hold no dash, has the five groups as its session
    identity, whatever the prefix and the directory. *)
Theorem derive_session_id_five_groups dir prefix groups :
  length groups = 5%nat →
  Forall (λ g, g ≠ [] ∧ (45 ∉ g) ∧ (47 ∉ g)) groups →
  47 ∉ prefix →
  _derive_session_id
    (dir ++ py "/" ++ prefix ++ py "-" ++ join (py "-") groups ++ py ".jsonl")
  = join (py "-") groups.
Proof.
  intros Hlen Hgroups Hprefix.
  set (stem := prefix ++ py "-" ++ join (py "-") groups).
  assert (Hjoin_slash : 47 ∉ join (py "-") groups).
  { clear Hlen. induction Hgroups as [|g gs (_ & _ & Hg) _ IH]; [by apply not_elem_of_nil|].
    destruct gs as [|g' gs]; [done|].
    rewrite join_cons_cons, !not_elem_of_app. split_and!; [done| |done].
    apply (bool_decide_unpack _). by vm_compute. }
  assert (Hstem : 47 ∉ stem).
  { unfold stem. rewrite !not_elem_of_app. split_and!; [done| |done].
    apply (bool_decide_unpack _). by vm_compute. }
  replace (dir ++ py "/" ++ prefix ++ py "-" ++ join (py "-") groups ++ py ".jsonl")
    with (dir ++ py "/" ++ (stem ++ py ".jsonl"))
    by (unfold stem; by rewrite <- !app_assoc).
  unfold _derive_session_id.
  rewrite path_stem_of_file;
    [|apply jsonl_not_dot
     |rewrite not_elem_of_app; split; [done|];
      apply (bool_decide_unpack _); by vm_compute].
  rewrite path_stem_jsonl; [|by destruct prefix|done].
  assert (Hsplit : split 45 stem = split 45 prefix ++ groups).
  { unfold stem. change (py "-") with [45]. cbn [app].
    rewrite split_app, split_join; [done|by destruct groups|].
    eapply Forall_impl; [exact Hgroups|]. by intros ? (?&?&?). }
  change (py "-") with [45]. rewrite !Hsplit, length_app, Hlen.
  assert ((5 <=? Z.of_nat (length (split 45 prefix) + 5)) = true) as ->
    by (apply Z.leb_le; lia).
  replace (length (split 45 prefix) + 5 - 5)%nat
    with (length (split 45 prefix)) by lia.
  rewrite drop_app_length.
  assert (forallb (λ p, negb (is_empty p)) groups = true) as ->; [|done].
  clear -Hgroups. induction Hgroups as [|g gs (Hg & _) _ IH]; [done|].
  simpl. rewrite IH. by destruct g.
Qed.

Lemma derive_session_id_five_groups_witness :
  _derive_session_id
    (py "sessions/2025" ++ py "/" ++ py "rollout-2025-01-01" ++ py "-"
     ++ join (py "-") [py "0199"; py "ab"; py "cd"; py "ef"; py "0123"]
     ++ py ".jsonl")
  = py "0199-ab-cd-ef-0123".
Proof.
  apply (derive_session_id_five_groups (py "sessions/2025")
           (py "rollout-2025-01-01")
           [py "0199"; py "ab"; py "cd"; py "ef"; py "0123"]).
  - reflexivity.
  - repeat constructor; try done; apply (bool_decide_unpack _); by vm_compute.
  - apply (bool_decide_unpack _). by vm_compute.
Defined.

(** X6. The session identity is always a suffix of the file stem. *)
Theorem derive_session_id_suffix_of_stem path :
  _derive_session_id path `suffix_of` path_stem path.
Proof.
  unfold _derive_session_id. repeat case_match; try done.
  change (py "-") with [45].
  pose proof (join_drop_suffix [45] (split 45 (path_stem path))
                (length (split 45 (path_stem path)) - 5)) as Hsuffix.
  by rewrite join_split in Hsuffix.
Qed.

(** ** The payload normaliser, further *)

Lemma render_tail_inv prefix content h t :
  render_tail prefix content = Some (h, t) →
  h = prefix ∧ t ≠ [] ∧ strip t = t.
Proof.
  unfold render_tail. destruct content as [c|]; [|done].
  destruct (strip c) as [|x r] eqn:Hc; [done|]. cbn [is_empty].
  intros [= <- <-]. split_and!; [done|done|]. rewrite <- Hc. apply strip_idem.
Qed.

Lemma render_payload_tail `{PyRuntime} payload prefix content :
  _render_payload payload = Ok (Some (prefix, content)) →
  ∃ p c, render_tail p c = Some (prefix, content).
Proof.
  assert (Htail : ∀ p c, Ok (render_tail p c) = Ok (Some (prefix, content)) →
            ∃ p c, render_tail p c = Some (prefix, content)).
  { intros p c [= Heq]. by exists p, c. }
  unfold _render_payload.
  destruct (str_eq _ (py "message")).
  { destruct (str_upper _) as [role| |]; cbn [bind]; [|done..].
    destruct (py_iter _) as [chunks| |]; cbn [bind]; [|done..].
    destruct (str_join _ _) as [joined| |]; cbn [bind]; [|done..].
    destruct (is_empty _); [done|]. apply Htail. }
  destruct (in_str_set _ _) as [[]| |]; cbn [bind]; [| |done..].
  { destruct (str_upper _) as [p| |]; cbn [bind]; [|done..].
    destruct (str_strip _) as [c| |]; cbn [bind]; [|done..]. apply Htail. }
  destruct (str_eq _ (py "agent_reasoning")).
  { destruct (str_strip _) as [c| |]; cbn [bind]; [|done..]. apply Htail. }
  destruct (str_eq _ (py "reasoning")).
  { match goal with
    | |- bind ?m _ = _ → _ => destruct m as [c| |]; cbn [bind]; [|done..]
    end.
    apply Htail. }
  repeat (destruct (str_eq _ _); [apply Htail|]).
  destruct (str_upper _) as [p| |]; cbn [bind]; [|done..]. apply Htail.
Qed.

(** X7. Whatever the payload, a rendered segment has a text that is not
    empty and has no white space at either end. *)
Theorem render_text_stripped `{PyRuntime} payload prefix content :
  _render_payload payload = Ok (Some (prefix, content)) →
  content ≠ [] ∧ strip content = content.
Proof.
  intros (p & c & Htail)%render_payload_tail.
  by apply render_tail_inv in Htail as (_ & ? & ?).
Qed.

Lemma render_text_stripped_witness :
  @_render_payload sample_runtime payload_user_b
    = Ok (Some (py "USER_MESSAGE", py "B"))
  ∧ py "B" ≠ [] ∧ strip (py "B") = py "B".
Proof.
  assert (Hrun : @_render_payload sample_runtime payload_user_b
                 = Ok (Some (py "USER_MESSAGE", py "B"))) by (vm_compute; reflexivity).
  split; [exact Hrun|].
  exact (@render_text_stripped sample_runtime payload_user_b
           (py "USER_MESSAGE") (py "B") Hrun).
Defined.

(** X8. A user or agent message whose text is missing or blank gives no
    segment. *)
Theorem render_blank_message_dropped `{PyRuntime} payload kind message :
  dict_get payload (py "type") JNull = JStr kind →
  kind = py "user_message" ∨ kind = py "agent_message" →
  dict_get payload (py "message") (JStr []) = JStr message →
  strip message = [] →
  _render_payload payload = Ok None.
Proof.
  intros Htype Hkind Hmsg Hblank. unfold _render_payload.
  rewrite Htype, Hmsg.
  assert (str_eq (JStr kind) (py "message") = false) as ->
    by (destruct Hkind as [-> | ->]; reflexivity).
  assert (in_str_set (JStr kind) [py "user_message"; py "agent_message"]
          = Ok true) as ->
    by (destruct Hkind as [-> | ->]; reflexivity).
  cbn [bind str_upper str_strip]. rewrite Hblank.
  reflexivity.
Qed.

Lemma render_blank_message_dropped_witness :
  @_render_payload sample_runtime payload_blank = Ok None.
Proof.
  apply (@render_blank_message_dropped sample_runtime payload_blank
           (py "agent_message") (py "  "));
    [reflexivity|by right|reflexivity|reflexivity].
Defined.

(** X9. A reasoning payload without summary text but with encrypted content
    is kept, with a fixed placeholder as its text. *)
Theorem render_encrypted_reasoning `{PyRuntime} payload :
  dict_get payload (py "type") JNull = JStr (py "reasoning") →
  dict_get payload (py "summary") JNull = JNull
  ∨ dict_get payload (py "summary") JNull = JList [] →
  truthy (dict_get payload (py "encrypted_content") JNull) = true →
  _render_payload payload
  = Ok (Some (py "REASONING", py "<encrypted reasoning content>")).
Proof.
  intros Htype Hsummary Henc. unfold _render_payload. rewrite Htype.
  change (str_eq (JStr (py "reasoning")) (py "message")) with false.
  change (in_str_set (JStr (py "reasoning")) _) with (Ok false).
  change (str_eq (JStr (py "reasoning")) (py "agent_reasoning")) with false.
  change (str_eq (JStr (py "reasoning")) (py "reasoning")) with true.
  cbn [bind]. rewrite Henc.
  destruct Hsummary as [-> | ->]; reflexivity.
Qed.

Lemma render_encrypted_reasoning_witness :
  @_render_payload sample_runtime payload_encrypted
  = Ok (Some (py "REASONING", py "<encrypted reasoning content>")).
Proof.
  apply (@render_encrypted_reasoning sample_runtime payload_encrypted);
    [reflexivity|by right|reflexivity].
Defined.

(** X10. Token-count telemetry is never dropped: whatever the payload
    holds, it is rendered under [TOKEN_COUNT] as the JSON object of its
    [info] and [rate_limits] fields ([null] when missing). *)
Theorem render_token_count `{PyRuntime} payload :
  dict_get payload (py "type") JNull = JStr (py "token_count") →
  _render_payload payload
  = Ok (Some (py "TOKEN_COUNT",
              _format_json
                (JDict [(py "info", dict_get payload (py "info") JNull);
                        (py "rate_limits",
                         dict_get payload (py "rate_limits") JNull)]))).
Proof.
  intros Htype. unfold _render_payload. rewrite Htype.
  change (str_eq (JStr (py "token_count")) (py "message")) with false.
  change (in_str_set (JStr (py "token_count")) _) with (Ok false).
  change (str_eq (JStr (py "token_count")) (py "agent_reasoning")) with false.
  change (str_eq (JStr (py "token_count")) (py "reasoning")) with false.
  change (str_eq (JStr (py "token_count")) (py "function_call")) with false.
  change (str_eq (JStr (py "token_count")) (py "function_call_output"))
    with false.
  change (str_eq (JStr (py "token_count")) (py "token_count")) with true.
  cbn [bind].
  destruct (format_json_dict_strip
              [(py "info", dict_get payload (py "info") JNull);
               (py "rate_limits", dict_get payload (py "rate_limits") JNull)])
    as [Hstrip Hne].
  unfold render_tail. rewrite Hstrip.
  by destruct (_format_json _).
Qed.

Lemma render_token_count_witness :
  @_render_payload sample_runtime payload_token_count
  = Ok (Some (py "TOKEN_COUNT",
              @_format_json sample_runtime
                (JDict [(py "info", JNull); (py "rate_limits", JNull)]))).
Proof.
  apply (@render_token_count sample_runtime payload_token_count). reflexivity.
Defined.

(** ** Timestamps *)



Lemma replace_char_app old new a b :
  replace_char old new (a ++ b) = replace_char old new a ++ replace_char old new b.
Proof. unfold replace_char. apply bind_app. Qed.

(** X12. A trailing [Z] is read as the offset [+00:00]. *)
Theorem parse_timestamp_zulu `{PyRuntime} s :
  _parse_timestamp (JStr (s ++ py "Z"))
  = _parse_timestamp (JStr (s ++ py "+00:00")).
Proof.
  unfold _parse_timestamp.
  assert (Ht : ∀ t, t ≠ [] → truthy (JStr (s ++ t)) = true).
  { intros t Ht. destruct s, t; done. }
  rewrite !Ht by done. cbn [negb]. by rewrite !replace_char_app.
Qed.

(** ** The transcript reader, further *)

Lemma collect_line_new `{PyRuntime} segs ts dg raw segs' ts' dg' :
  collect_line (segs, ts, dg) raw = Ok (segs', ts', dg') →
  ∃ new, segs' = segs ++ new
       ∧ (length new ≤ 1)%nat
       ∧ Forall (λ seg, text seg ≠ [] ∧ strip (text seg) = text seg
                        ∧ combined seg
                          = header seg ++ py ":" ++ [10] ++ text seg) new
       ∧ (∀ t, ts = Some t → ∃ t', ts' = Some t' ∧ dt_gt t t' = false).
Proof.
  unfold collect_line. destruct (json_loads raw) as [data|]; last first.
  { intros [= <- <- <-]. exists []. rewrite app_nil_r.
    split_and!; [done|simpl; lia|done|]. intros t ->. exists t. split; [done|].
    unfold dt_gt. lia. }
  destruct (py_get data (py "payload")) as [payload0| |]; cbn [bind]; [|done..].
  destruct (py_get (por payload0 (JDict [])) (py "type")) as [ptype| |];
    cbn [bind]; [|done..].
  destruct (py_get (por payload0 (JDict [])) (py "timestamp"))
    as [ts_payload| |]; cbn [bind]; [|done..].
  destruct (if truthy ts_payload then Ok ts_payload
            else py_get data (py "timestamp")) as [ts_raw| |];
    cbn [bind]; [|done..].
  destruct (_parse_timestamp ts_raw) as [t| |]; cbn [bind]; [|done..].
  set (latest := match t, ts with
                 | Some t0, None => Some t0
                 | Some t0, Some latest =>
                     if dt_gt t0 latest then Some t0 else ts
                 | None, _ => ts
                 end).
  assert (Hlatest : ∀ t0, ts = Some t0 →
            ∃ t', latest = Some t' ∧ dt_gt t0 t' = false).
  { intros t0 ->. unfold latest. destruct t as [t1|].
    - destruct (dt_gt t1 t0) eqn:Hgt.
      + exists t1. split; [done|]. unfold dt_gt in *. lia.
      + exists t0. split; [done|]. unfold dt_gt. lia.
    - exists t0. split; [done|]. unfold dt_gt. lia. }
  destruct (por payload0 (JDict [])) as [| | | | | |payload]; try done.
  destruct (_render_payload payload) as [[[h x]|]| |] eqn:Hrender;
    cbn [bind]; [| |done..].
  - intros [= <- <- <-]. eexists [_]. split_and!; [done|simpl; lia| |done].
    apply render_payload_tail in Hrender as (p & c & Htail).
    apply render_tail_inv in Htail as (_ & Hne & Hstrip).
    constructor; [|done]. cbn [text combined header].
    by rewrite Hstrip.
  - intros [= <- <- <-]. exists []. rewrite app_nil_r.
    split_and!; [done|simpl; lia|done|done].
Qed.

Lemma collect_loop_new `{PyRuntime} lines segs ts dg segs' ts' dg' :
  collect_loop lines (segs, ts, dg) = Ok (segs', ts', dg') →
  ∃ new, segs' = segs ++ new
       ∧ (length new ≤ length lines)%nat
       ∧ Forall (λ seg, text seg ≠ [] ∧ strip (text seg) = text seg
                        ∧ combined seg
                          = header seg ++ py ":" ++ [10] ++ text seg) new
       ∧ (∀ t, ts = Some t → ∃ t', ts' = Some t' ∧ dt_gt t t' = false).
Proof.
  revert segs ts dg. induction lines as [|raw lines IH]; intros segs ts dg.
  { intros [= <- <- <-]. exists []. rewrite app_nil_r.
    split_and!; [done|done|done|]. intros t ->. exists t. split; [done|].
    unfold dt_gt. lia. }
  cbn [collect_loop].
  destruct (collect_line (segs, ts, dg) raw) as [[[s1 t1] d1]| |] eqn:Hl;
    cbn [bind]; [|done..].
  intros Hrest.
  apply collect_line_new in Hl as (new1 & -> & Hlen1 & Hall1 & Hts1).
  apply IH in Hrest as (new2 & -> & Hlen2 & Hall2 & Hts2).
  exists (new1 ++ new2). rewrite length_app, app_assoc.
  split_and!; [done|simpl; lia|by apply Forall_app|].
  intros t Ht. destruct (Hts1 t Ht) as (t' & Ht' & Hle).
  destruct (Hts2 t' Ht') as (t'' & Ht'' & Hle').
  exists t''. split; [done|]. unfold dt_gt in *. lia.
Qed.

(** X13. Every segment that the reader returns has a text that is not
    empty and carries no white space at either end, and its [combined]
    field is the header, a colon, a line feed and the text; there are at
    most as many segments as lines. *)
Theorem collect_segments_well_formed `{PyRuntime} lines segs ts dg :
  _collect_segments lines = Ok (segs, ts, dg) →
  Forall (λ seg, text seg ≠ [] ∧ strip (text seg) = text seg
                 ∧ combined seg = header seg ++ py ":" ++ [10] ++ text seg)
         segs
  ∧ (length segs ≤ length lines)%nat.
Proof.
  unfold _collect_segments.
  destruct (collect_loop lines ([], None, [])) as [[[s t] d]| |] eqn:Hloop;
    cbn [bind]; [|done..].
  intros [= <- <- <-].
  by apply collect_loop_new in Hloop as (new & -> & Hlen & Hall & _).
Qed.

Lemma collect_segments_well_formed_witness :
  @_collect_segments sample_runtime [line_b; line_broken; line_bb]
    = Ok ([seg_b; seg_bb], None, hex_dump (digest_input [seg_b; seg_bb]))
  ∧ Forall (λ seg, text seg ≠ [] ∧ strip (text seg) = text seg
                   ∧ combined seg = header seg ++ py ":" ++ [10] ++ text seg)
           [seg_b; seg_bb]
  ∧ (length [seg_b; seg_bb] ≤ length [line_b; line_broken; line_bb])%nat.
Proof.
  assert (Hrun : @_collect_segments sample_runtime [line_b; line_broken; line_bb]
            = Ok ([seg_b; seg_bb], None, hex_dump (digest_input [seg_b; seg_bb])))
    by (vm_compute; reflexivity).
  split; [exact Hrun|].
  exact (@collect_segments_well_formed sample_runtime _ _ _ _ Hrun).
Defined.

(** X14. Transcripts are append-only logs, and so is their reading: when
    lines are appended, the segments read before are a prefix of the
    segments read after, the digest input read before is a prefix of the
    digest input read after, and the latest timestamp does not move
    back. *)
Theorem collect_segments_append `{PyRuntime} pre post segs1 ts1 dg1
    segs2 ts2 dg2 :
  _collect_segments pre = Ok (segs1, ts1, dg1) →
  _collect_segments (pre ++ post) = Ok (segs2, ts2, dg2) →
  segs1 `prefix_of` segs2
  ∧ digest_input segs1 `prefix_of` digest_input segs2
  ∧ (∀ t1, ts1 = Some t1 → ∃ t2, ts2 = Some t2 ∧ dt_gt t1 t2 = false).
Proof.
  unfold _collect_segments. rewrite collect_loop_app.
  destruct (collect_loop pre ([], None, [])) as [[[s1 t1] d1]| |] eqn:Hpre;
    cbn [bind]; [|done..].
  intros [= <- <- <-].
  destruct (collect_loop post (s1, t1, d1)) as [[[s2 t2] d2]| |] eqn:Hpost;
    cbn [bind]; [|done..].
  intros [= <- <- <-].
  apply collect_loop_new in Hpost as (new & -> & _ & _ & Hts).
  split_and!; [by exists new| |done].
  exists (digest_input new). unfold digest_input. apply bind_app.
Qed.

Lemma collect_segments_append_witness :
  @_collect_segments sample_runtime [line_b]
    = Ok ([seg_b], None, hex_dump (digest_input [seg_b]))
  ∧ @_collect_segments sample_runtime ([line_b] ++ [line_bb])
    = Ok ([seg_b; seg_bb], None, hex_dump (digest_input [seg_b; seg_bb]))
  ∧ [seg_b] `prefix_of` [seg_b; seg_bb]
  ∧ digest_input [seg_b] `prefix_of` digest_input [seg_b; seg_bb]
  ∧ (∀ t1 : datetime, None = Some t1 →
       ∃ t2, None = Some t2 ∧ dt_gt t1 t2 = false).
Proof.
  assert (H1 : @_collect_segments sample_runtime [line_b]
            = Ok ([seg_b], None, hex_dump (digest_input [seg_b])))
    by (vm_compute; reflexivity).
  assert (H2 : @_collect_segments sample_runtime ([line_b] ++ [line_bb])
            = Ok ([seg_b; seg_bb], None, hex_dump (digest_input [seg_b; seg_bb])))
    by (vm_compute; reflexivity).
  split; [exact H1|]. split; [exact H2|].
  exact (@collect_segments_append sample_runtime _ _ _ _ _ _ _ _ H1 H2).
Defined.

(** ** One transcript, further *)



Lemma keeps_bind_quiet {A B} (m : M A) (k : A → M B) :
  keeps no_request m → (∀ a, keeps no_request (k a)) →
  keeps no_request (bindM m k).
Proof.
  intros Hm Hk st. unfold bindM. specialize (Hm st).
  destruct (m st) as [[a| |] s1]; cbn [snd] in *; [|done..].
  specialize (Hk a s1). unfold no_request in *. split; [lia|].
  destruct Hm, Hk. congruence.
Qed.

Lemma keeps_bind_before {A B} (m : M A) (k : A → M B) :
  keeps no_request m → (∀ a, keeps one_request (k a)) →
  keeps one_request (bindM m k).
Proof.
  intros Hm Hk st. unfold bindM. specialize (Hm st).
  destruct (m st) as [[a| |] s1]; cbn [snd] in *;
    [|unfold no_request, one_request in *; split; [lia|tauto]..].
  specialize (Hk a s1). unfold no_request, one_request in *.
  split; [lia|]. destruct Hm, Hk. congruence.
Qed.

Lemma keeps_bind_after {A B} (m : M A) (k : A → M B) :
  keeps one_request m → (∀ a, keeps no_request (k a)) →
  keeps one_request (bindM m k).
Proof.
  intros Hm Hk st. unfold bindM. specialize (Hm st).
  destruct (m st) as [[a| |] s1]; cbn [snd] in *; [|done..].
  specialize (Hk a s1). unfold no_request, one_request in *.
  split; [lia|]. destruct Hm, Hk. congruence.
Qed.

Lemma keeps_lift {A} (r : result A) : keeps no_request (lift r).
Proof. by intros st. Qed.

Lemma keeps_ret {A} (a : A) : keeps no_request (ret a).
Proof. by intros st. Qed.

Lemma keeps_next_tick : keeps no_request next_tick.
Proof. by intros st. Qed.

Lemma keeps_print e : keeps no_request (print e).
Proof. by intros st. Qed.

Lemma keeps_warn counter : keeps no_request (warn_token_counter counter).
Proof. intros st. unfold warn_token_counter. by case_match. Qed.

Lemma keeps_request `{Services} model system user :
  keeps one_request (_request_summary model system user).
Proof.
  intros st. unfold _request_summary.
  destruct api_key as [[|c key]|]; unfold one_request; cbn; (split; [lia|done]).
Qed.

Lemma request_keyless `{Services} model system user :
  truthy (opt_str api_key) = false →
  _request_summary model system user
  = lift (Raise (RuntimeError
                   (py "Set OPENAI_API_KEY to summarize conversations."))).
Proof. unfold _request_summary. by destruct api_key as [[|c key]|]. Qed.

Lemma keeps_request_keyless `{Services} model system user :
  truthy (opt_str api_key) = false →
  keeps no_request (_request_summary model system user).
Proof. intros Hkey. rewrite request_keyless by done. apply keeps_lift. Qed.

Lemma keeps_append_history `{PyRuntime} `{Services} summary_dir record :
  keeps no_request (_append_history summary_dir record).
Proof.
  unfold _append_history. apply keeps_bind_quiet; [apply keeps_lift|].
  intros session_id. apply keeps_bind_quiet; [apply keeps_next_tick|].
  intros t. apply keeps_bind_quiet; [apply keeps_lift|]. intros _.
  apply keeps_ret.
Qed.

Lemma keeps_write_summary `{Services} sid label model truncated kept dg payload :
  keeps no_request (_write_summary sid label model truncated kept dg payload).
Proof.
  unfold _write_summary. apply keeps_bind_quiet; [apply keeps_next_tick|].
  intros t. destruct payload; try apply keeps_lift.
  apply keeps_bind_quiet; [apply keeps_next_tick|]. intros t'.
  apply keeps_bind_quiet; [apply keeps_lift|]. intros _. apply keeps_ret.
Qed.

Lemma keeps_summarize `{PyRuntime} `{Services} env path label model
    max_tokens summary_dir label_map :
  keeps one_request
    (summarize_session env path label model max_tokens summary_dir label_map).
Proof.
  unfold summarize_session.
  destruct (files env !! path) as [file|];
    [|intros st; unfold one_request; cbn; split; [lia|done]].
  apply keeps_bind_before.
  { destruct (truthy label); [apply keeps_ret|apply keeps_lift]. }
  intros label'. apply keeps_bind_before; [apply keeps_lift|].
  intros [[segs ts] dg].
  destruct (is_empty segs);
    [intros st; unfold one_request; cbn; split; [lia|done]|].
  apply keeps_bind_before; [apply keeps_warn|]. intros _.
  apply keeps_bind_before; [apply keeps_lift|].
  intros [[trimmed truncated] kept].
  apply keeps_bind_after; [apply keeps_request|]. intros payload.
  apply keeps_bind_quiet; [apply keeps_write_summary|]. intros record.
  apply keeps_bind_quiet; [apply keeps_append_history|]. intros history_path.
  apply keeps_ret.
Qed.

Lemma summarize_keyless_quiet `{PyRuntime} `{Services} env path label model
    max_tokens summary_dir label_map :
  truthy (opt_str api_key) = false →
  keeps no_request
    (summarize_session env path label model max_tokens summary_dir label_map).
Proof.
  intros Hkey. unfold summarize_session.
  destruct (files env !! path) as [file|]; [|apply keeps_lift].
  apply keeps_bind_quiet.
  { destruct (truthy label); [apply keeps_ret|apply keeps_lift]. }
  intros label'. apply keeps_bind_quiet; [apply keeps_lift|].
  intros [[segs ts] dg]. destruct (is_empty segs); [apply keeps_lift|].
  apply keeps_bind_quiet; [apply keeps_warn|]. intros _.
  apply keeps_bind_quiet; [apply keeps_lift|].
  intros [[trimmed truncated] kept].
  apply keeps_bind_quiet; [by apply keeps_request_keyless|]. intros payload.
  apply keeps_bind_quiet; [apply keeps_write_summary|]. intros record.
  apply keeps_bind_quiet; [apply keeps_append_history|]. intros history_path.
  apply keeps_ret.
Qed.

Lemma bindM_fails {A B} (m : M A) (k : A → M B) st :
  (∀ a, (m st).1 ≠ Ok a) → ∀ b, (bindM m k st).1 ≠ Ok b.
Proof.
  intros Hm b. unfold bindM. destruct (m st) as [[a| |] s1]; cbn in *; [|done..].
  by destruct (Hm a).
Qed.

Lemma bindM_then_fails {A B} (m : M A) (k : A → M B) st :
  (∀ a s b, (k a s).1 ≠ Ok b) → ∀ b, (bindM m k st).1 ≠ Ok b.
Proof.
  intros Hk b. unfold bindM. destruct (m st) as [[a| |] s1]; cbn; [|done..].
  apply Hk.
Qed.

(** X16. Without an API key, be it unset or set to the empty string, no
    transcript is summarized and nothing is sent: the call fails, the count
    of requests and the index file are as before. *)
Theorem summarize_without_key `{PyRuntime} `{Services} env path label model
    max_tokens summary_dir label_map st :
  truthy (opt_str api_key) = false →
  let outcome :=
    summarize_session env path label model max_tokens summary_dir label_map st in
  (∀ record, outcome.1 ≠ Ok record)
  ∧ requests outcome.2 = requests st
  ∧ index_doc outcome.2 = index_doc st.
Proof.
  intros Hkey outcome.
  destruct (summarize_keyless_quiet env path label model max_tokens
              summary_dir label_map Hkey st) as [Hreq Hidx].
  split; [|done]. subst outcome. unfold summarize_session.
  destruct (files env !! path) as [file|]; [|done].
  apply bindM_then_fails. intros label' s1.
  apply bindM_then_fails. intros [[segs ts] dg] s2.
  destruct (is_empty segs); [done|].
  apply bindM_then_fails. intros _ s3.
  apply bindM_then_fails. intros [[trimmed truncated] kept] s4.
  apply bindM_fails. intros payload. by rewrite request_keyless.
Qed.

Lemma summarize_without_key_witness :
  let outcome :=
    @summarize_session sample_runtime keyless_services env_only_b
      (py "sessions/b.jsonl") JNull (py "gpt-5") 200000 (py "out") (JDict [])
      initial_state in
  truthy (opt_str (@api_key keyless_services)) = false
  ∧ (∀ record, outcome.1 ≠ Ok record)
  ∧ requests outcome.2 = requests initial_state
  ∧ index_doc outcome.2 = index_doc initial_state.
Proof.
  assert (Hkey : truthy (opt_str (@api_key keyless_services)) = false)
    by reflexivity.
  split; [exact Hkey|].
  exact (@summarize_without_key sample_runtime keyless_services env_only_b
           (py "sessions/b.jsonl") JNull (py "gpt-5") 200000 (py "out")
           (JDict []) initial_state Hkey).
Defined.

(** ** The batch, further *)

(** X17. With the force flag every transcript is dispatched, in order, and
    no transcript is read to decide so. *)
Theorem scan_force `{PyRuntime} env index_data sessions acc :
  scan env index_data true sessions acc = Ok (acc ++ sessions).
Proof.
  revert acc. induction sessions as [|path rest IH]; intros acc.
  - by rewrite app_nil_r.
  - cbn [scan]. unfold needs_refresh. cbn [orb bind].
    rewrite IH. by rewrite <- app_assoc.
Qed.

(** X18. The transcripts to process are a subsequence of the sessions: the
    scan keeps their order and selects none twice. *)
Theorem scan_subsequence `{PyRuntime} env index_data force sessions to_process :
  scan env index_data force sessions [] = Ok to_process →
  to_process `sublist_of` sessions.
Proof.
  intros (sel & Hsel & Hsub & _)%scan_inv. by rewrite Hsel.
Qed.

Lemma scan_subsequence_witness :
  @scan sample_runtime env_empty_and_b [] false
     [py "sessions/a.jsonl"; py "sessions/b.jsonl"] []
   = Ok [py "sessions/a.jsonl"; py "sessions/b.jsonl"]
  ∧ [py "sessions/a.jsonl"; py "sessions/b.jsonl"]
    `sublist_of` [py "sessions/a.jsonl"; py "sessions/b.jsonl"].
Proof.
  assert (Hscan : @scan sample_runtime env_empty_and_b [] false
            [py "sessions/a.jsonl"; py "sessions/b.jsonl"] []
          = Ok [py "sessions/a.jsonl"; py "sessions/b.jsonl"])
    by (vm_compute; reflexivity).
  split; [exact Hscan|].
  exact (@scan_subsequence sample_runtime _ _ _ _ _ Hscan).
Defined.

Lemma apply_limit_suffix_of limit sessions :
  apply_limit limit sessions `suffix_of` sessions.
Proof.
  unfold apply_limit. repeat case_match; try done; apply drop_suffix_of.
Qed.

(** X19. The limit keeps a suffix of the sessions: the [n] last ones for a
    positive [n] (all of them when there are fewer), while a negative [n]
    drops the [-n] first ones instead. *)
Theorem apply_limit_suffix limit sessions :
  apply_limit limit sessions `suffix_of` sessions
  ∧ (∀ n, limit = Some n → 0 < n →
       length (apply_limit limit sessions)
       = Nat.min (Z.to_nat n) (length sessions))
  ∧ (∀ n, limit = Some n → n < 0 →
       apply_limit limit sessions = drop (Z.to_nat (- n)) sessions).
Proof.
  split_and!.
  - apply apply_limit_suffix_of.
  - intros n -> Hn. unfold apply_limit.
    replace (n =? 0) with false by lia. replace (0 <? n) with true by lia.
    rewrite length_drop. lia.
  - intros n -> Hn. unfold apply_limit.
    replace (n =? 0) with false by lia. by replace (0 <? n) with false by lia.
Qed.

Lemma insert_by_mtime_perm x sorted : insert_by_mtime x sorted ≡ₚ x :: sorted.
Proof.
  induction sorted as [|y rest IH]; [done|]. simpl.
  destruct (x.1 <=? y.1); [done|]. rewrite IH. apply Permutation_swap.
Qed.

Lemma insert_by_mtime_sorted x sorted :
  StronglySorted (λ a b : Z * list Z, a.1 ≤ b.1) sorted →
  StronglySorted (λ a b : Z * list Z, a.1 ≤ b.1) (insert_by_mtime x sorted).
Proof.
  induction 1 as [|y rest Hrest IH Hy]; [repeat constructor|]. simpl.
  destruct (x.1 <=? y.1) eqn:Hxy.
  - constructor; [by constructor|]. constructor; [lia|].
    eapply Forall_impl; [exact Hy|]. intros z Hz. simpl in *. lia.
  - constructor; [done|]. rewrite insert_by_mtime_perm.
    constructor; [lia|done].
Qed.

Lemma with_mtime_spec env paths keyed :
  with_mtime env paths = Ok keyed →
  keyed.*2 = paths
  ∧ Forall (λ x, ∃ f, files env !! x.2 = Some f ∧ st_mtime f = x.1) keyed.
Proof.
  revert keyed. induction paths as [|p rest IH]; intros keyed.
  { by intros [= <-]. }
  cbn [with_mtime]. destruct (files env !! p) as [f|] eqn:Hf; [|done].
  destruct (with_mtime env rest) as [k| |]; cbn [bind]; [|done..].
  intros [= <-]. destruct (IH k eq_refl) as [Hpaths Hall].
  split; [by rewrite fmap_cons, Hpaths|]. constructor; [by exists f|done].
Qed.

Lemma foldr_insert_perm keyed : foldr insert_by_mtime [] keyed ≡ₚ keyed.
Proof.
  induction keyed as [|x keyed IH]; [done|].
  cbn [foldr]. by rewrite insert_by_mtime_perm, IH.
Qed.

Lemma sorted_sessions_perm env all :
  sorted_sessions env = Ok all → all ≡ₚ rglob_jsonl env.
Proof.
  unfold sorted_sessions.
  destruct (with_mtime env (rglob_jsonl env)) as [keyed| |] eqn:Hkeyed;
    cbn [bind]; [|done..].
  intros [= <-]. apply with_mtime_spec in Hkeyed as [Hpaths _].
  by rewrite foldr_insert_perm, Hpaths.
Qed.

(** X20. The sessions are all the transcripts that were found, each once
    per finding, in ascending order of modification time. *)
Theorem sorted_sessions_sorted env all :
  sorted_sessions env = Ok all →
  all ≡ₚ rglob_jsonl env
  ∧ ∃ keyed,
      all = keyed.*2
      ∧ StronglySorted (λ a b : Z * list Z, a.1 ≤ b.1) keyed
      ∧ Forall (λ x, ∃ f, files env !! x.2 = Some f ∧ st_mtime f = x.1) keyed.
Proof.
  intros Hrun. split; [by apply sorted_sessions_perm|].
  revert Hrun. unfold sorted_sessions.
  destruct (with_mtime env (rglob_jsonl env)) as [keyed| |] eqn:Hkeyed;
    cbn [bind]; [|done..].
  intros [= <-]. apply with_mtime_spec in Hkeyed as [Hpaths Hall].
  exists (foldr insert_by_mtime [] keyed).
  split_and!; [done| |by rewrite foldr_insert_perm].
  clear. induction keyed as [|x keyed IH]; [constructor|].
  cbn [foldr]. by apply insert_by_mtime_sorted.
Qed.

Lemma sorted_sessions_sorted_witness :
  sorted_sessions env_empty_and_b
    = Ok [py "sessions/a.jsonl"; py "sessions/b.jsonl"]
  ∧ [py "sessions/a.jsonl"; py "sessions/b.jsonl"]
    ≡ₚ rglob_jsonl env_empty_and_b
  ∧ ∃ keyed,
      [py "sessions/a.jsonl"; py "sessions/b.jsonl"] = keyed.*2
      ∧ StronglySorted (λ a b : Z * list Z, a.1 ≤ b.1) keyed
      ∧ Forall (λ x, ∃ f, files env_empty_and_b !! x.2 = Some f
                          ∧ st_mtime f = x.1) keyed.
Proof.
  assert (Hrun : sorted_sessions env_empty_and_b
            = Ok [py "sessions/a.jsonl"; py "sessions/b.jsonl"])
    by (vm_compute; reflexivity).
  split; [exact Hrun|].
  exact (sorted_sessions_sorted env_empty_and_b _ Hrun).
Defined.

Lemma sorted_sessions_length env all :
  sorted_sessions env = Ok all → length all = length (rglob_jsonl env).
Proof. by intros ->%sorted_sessions_perm. Qed.

Lemma keeps_process `{PyRuntime} `{Services} env model max_tokens summary_dir
    label_map to_process index_data st r st' :
  process env model max_tokens summary_dir label_map to_process index_data st
    = (r, st') →
  (requests st ≤ requests st' ≤ requests st + length to_process)%nat
  ∧ index_doc st' = index_doc st.
Proof.
  revert index_data st.
  induction to_process as [|path rest IH]; intros index_data st.
  { intros [= _ <-]. cbn. split; [lia|done]. }
  cbn [process]. unfold bindM at 1, attempt.
  destruct (keeps_summarize env path JNull model max_tokens summary_dir
              label_map st) as [Hreq Hidx].
  destruct (summarize_session env path JNull model max_tokens summary_dir
              label_map st) as [[record|e|] st1]; cbn [snd] in *.
  - unfold bindM, next_tick, print. cbn [fst snd tick].
    intros [Hreq' Hidx']%IH.
    cbn [requests index_doc length] in *. split; [lia|congruence].
  - unfold bindM, print. cbn [fst snd].
    intros [Hreq' Hidx']%IH.
    cbn [requests index_doc length] in *. split; [lia|congruence].
  - intros [= _ <-]. cbn [length]. split; [lia|done].
Qed.

Lemma apply_limit_length limit sessions :
  (length (apply_limit limit sessions) ≤ length sessions)%nat.
Proof.
  destruct (apply_limit_suffix_of limit sessions) as [pre Hpre].
  rewrite Hpre at 2. rewrite length_app. lia.
Qed.

(** X21. A run sends at most one request for each transcript that was found,
    whatever the index holds and whatever fails. *)
Theorem refresh_request_bound `{PyRuntime} `{Services} env summary_dir model
    max_tokens limit force st :
  let st' :=
    (refresh_summaries env summary_dir model max_tokens limit force st).2 in
  (requests st ≤ requests st' ≤ requests st + length (rglob_jsonl env))%nat.
Proof.
  cbv zeta.
  destruct (refresh_summaries env summary_dir model max_tokens limit force st)
    as [r st'] eqn:Hrun.
  cbn [snd]. revert Hrun. unfold refresh_summaries.
  unfold bindM at 1, load_index. unfold bindM at 1, lift.
  destruct (sorted_sessions env) as [all| |] eqn:Hsorted;
    [|intros [= _ <-]; lia..].
  unfold bindM at 1.
  destruct (scan _ _ _ _ _) as [to_process| |] eqn:Hscan;
    [|intros [= _ <-]; lia..].
  destruct (is_empty to_process); [intros [= _ <-]; cbn; lia|].
  apply scan_inv in Hscan as (sel & -> & Hscan & _).
  apply sublist_length in Hscan. cbn [app] in *.
  pose proof (apply_limit_length limit all).
  pose proof (sorted_sessions_length _ _ Hsorted).
  unfold bindM.
  destruct (process _ _ _ _ _ _ _ _) as [r1 st1] eqn:Hrun.
  apply keeps_process in Hrun as [Hreq _].
  destruct r1; intros [= _ <-]; cbn [requests]; lia.
Qed.

(** ** The index across a run *)








(** ** _format_json and the order of keys *)

Lemma str_leb_total a b : str_leb a b = true ∨ str_leb b a = true.
Proof.
  revert b. induction a as [|x a IH]; intros [|y b]; cbn; auto.
  destruct (x <? y) eqn:Hxy; [by left|].
  destruct (y <? x) eqn:Hyx; [by right|]. apply IH.
Qed.

Lemma str_leb_trans a b c :
  str_leb a b = true → str_leb b c = true → str_leb a c = true.
Proof.
  revert b c. induction a as [|x a IH]; intros [|y b] [|z c]; cbn; try done.
  destruct (x <? y) eqn:Hxy, (y <? x) eqn:Hyx, (y <? z) eqn:Hyz,
    (z <? y) eqn:Hzy, (x <? z) eqn:Hxz, (z <? x) eqn:Hzx;
    try done; try lia.
  apply IH.
Qed.

Lemma str_leb_antisym a b :
  str_leb a b = true → str_leb b a = true → a = b.
Proof.
  revert b. induction a as [|x a IH]; intros [|y b]; cbn; try done.
  destruct (x <? y) eqn:Hxy, (y <? x) eqn:Hyx; try done; try lia.
  intros Hab Hba. f_equal; [lia|by apply IH].
Qed.

Lemma insert_item_perm kv items : insert_item kv items ≡ₚ kv :: items.
Proof.
  induction items as [|kv' rest IH]; [done|]. cbn [insert_item].
  destruct (str_leb kv.1 kv'.1); [done|]. rewrite IH. apply Permutation_swap.
Qed.

Lemma sort_items_perm items : sort_items items ≡ₚ items.
Proof.
  induction items as [|kv items IH]; [done|].
  unfold sort_items in *. cbn [foldr]. by rewrite insert_item_perm, IH.
Qed.

Lemma insert_item_sorted kv items :
  StronglySorted (λ a b : list Z * list Z, str_leb a.1 b.1 = true) items →
  StronglySorted (λ a b : list Z * list Z, str_leb a.1 b.1 = true)
    (insert_item kv items).
Proof.
  induction 1 as [|kv' rest Hrest IH Hkv']; [repeat constructor|].
  cbn [insert_item]. destruct (str_leb kv.1 kv'.1) eqn:Hle.
  - constructor; [by constructor|]. constructor; [done|].
    eapply Forall_impl; [exact Hkv'|]. intros z Hz. cbn in *.
    by eapply str_leb_trans.
  - constructor; [done|]. rewrite insert_item_perm. constructor; [|done].
    by destruct (str_leb_total kv.1 kv'.1) as [Hc|Hc]; [congruence|].
Qed.

Lemma sort_items_sorted items :
  StronglySorted (λ a b : list Z * list Z, str_leb a.1 b.1 = true)
    (sort_items items).
Proof.
  induction items as [|kv items IH]; [constructor|].
  unfold sort_items in *. cbn [foldr]. by apply insert_item_sorted.
Qed.

Lemma NoDup_fmap_fst_inj {A B} (l : list (A * B)) x y :
  NoDup l.*1 → x ∈ l → y ∈ l → x.1 = y.1 → x = y.
Proof.
  induction l as [|z l IH]; [by intros _ ?%elem_of_nil|].
  rewrite fmap_cons. intros [Hz Hl]%NoDup_cons.
  intros [->|Hx]%elem_of_cons [->|Hy]%elem_of_cons Hkey; [done| | |by apply IH].
  - destruct Hz. rewrite Hkey. by apply list_elem_of_fmap_2.
  - destruct Hz. rewrite <- Hkey. by apply list_elem_of_fmap_2.
Qed.

Lemma sorted_items_unique (l l' : list (list Z * list Z)) :
  StronglySorted (λ a b : list Z * list Z, str_leb a.1 b.1 = true) l →
  StronglySorted (λ a b : list Z * list Z, str_leb a.1 b.1 = true) l' →
  l ≡ₚ l' → NoDup l.*1 → l = l'.
Proof.
  intros Hl. revert l'.
  induction Hl as [|x l Hl IH Hx]; intros l' Hl' Hperm Hnodup.
  { by apply Permutation_nil_l in Hperm. }
  destruct Hl' as [|y l' Hl' Hy].
  { symmetry in Hperm. by apply Permutation_nil_cons in Hperm. }
  assert (x = y) as <-.
  { assert (Hxin : x ∈ y :: l') by (rewrite <- Hperm; left).
    assert (Hyin : y ∈ x :: l) by (rewrite Hperm; left).
    apply (NoDup_fmap_fst_inj (x :: l)); [done|by left|done|].
    apply elem_of_cons in Hxin as [->|Hxin]; [done|].
    apply elem_of_cons in Hyin as [->|Hyin]; [done|].
    apply str_leb_antisym.
    - by eapply Forall_forall in Hx.
    - by eapply Forall_forall in Hy. }
  f_equal. apply IH; [done|by eapply Permutation_cons_inv|].
  rewrite fmap_cons in Hnodup. by apply NoDup_cons in Hnodup as [_ ?].
Qed.

Lemma sort_items_canonical (l l' : list (list Z * list Z)) :
  l ≡ₚ l' → NoDup l.*1 → sort_items l = sort_items l'.
Proof.
  intros Hperm Hnodup.
  apply sorted_items_unique; [apply sort_items_sorted..| |].
  - by rewrite !sort_items_perm.
  - by rewrite sort_items_perm.
Qed.

(** X24. The rendering of an object does not depend on the order in which
    its keys were written: two objects with the same distinct keys and the
    same values under them are formatted alike. *)
Theorem format_json_key_order `{PyRuntime} (d d' : list (list Z * json)) :
  d ≡ₚ d' → NoDup d.*1 → _format_json (JDict d) = _format_json (JDict d').
Proof.
  intros Hperm Hnodup. unfold _format_json.
  destruct d as [|kv d].
  { apply Permutation_nil_l in Hperm. by subst. }
  destruct d' as [|kv' d'].
  { symmetry in Hperm. by apply Permutation_nil_cons in Hperm. }
  cbn [dumps].
  rewrite (sort_items_canonical
             ((λ kv0 : list Z * json, (kv0.1, dumps 1 kv0.2)) <$> kv :: d)
             ((λ kv0 : list Z * json, (kv0.1, dumps 1 kv0.2)) <$> kv' :: d'));
    [done|by rewrite Hperm|].
  by rewrite <- list_fmap_compose.
Qed.

Lemma format_json_key_order_witness :
  [(py "b", JInt 1); (py "a", JList [JBool true])]
    ≡ₚ [(py "a", JList [JBool true]); (py "b", JInt 1)]
  ∧ NoDup [(py "b", JInt 1); (py "a", JList [JBool true])].*1
  ∧ @_format_json sample_runtime
      (JDict [(py "b", JInt 1); (py "a", JList [JBool true])])
    = @_format_json sample_runtime
        (JDict [(py "a", JList [JBool true]); (py "b", JInt 1)]).
Proof.
  assert (Hperm : [(py "b", JInt 1); (py "a", JList [JBool true])]
                    ≡ₚ [(py "a", JList [JBool true]); (py "b", JInt 1)])
    by apply Permutation_swap.
  assert (Hnodup : NoDup [(py "b", JInt 1); (py "a", JList [JBool true])].*1)
    by (apply (bool_decide_unpack _); by vm_compute).
  split_and!; [exact Hperm|exact Hnodup|].
  exact (@format_json_key_order sample_runtime _ _ Hperm Hnodup).
Defined.

(** ** The record of a summarized transcript *)

(** X25. Whatever the remote summarizer replies, the record of a summarized
    transcript names the transcript's own path and the latest timestamp
    that was read from it, and says so when the token count was
    approximate: the reply cannot overwrite these fields. *)
Theorem summarize_record_provenance `{PyRuntime} `{Services} env path label
    model max_tokens summary_dir label_map st record :
  (summarize_session env path label model max_tokens summary_dir label_map st).1
    = Ok record →
  dict_get record (py "session_path") JNull = JStr path
  ∧ (∃ file segs ts dg,
       files env !! path = Some file
       ∧ _collect_segments (lines file) = Ok (segs, ts, dg)
       ∧ dict_get record (py "latest_timestamp") JNull
         = opt_str (isoformat <$> ts))
  ∧ (precise {| encoder := tiktoken_encoding |} = false →
     dict_get record (py "token_counter") JNull = JStr (py "approximate")).
Proof.
  destruct (summarize_session env path label model max_tokens summary_dir
              label_map st) as [r st'] eqn:Hrun.
  cbn [fst]. intros ->. revert Hrun. unfold summarize_session.
  destruct (files env !! path) as [file|]; [|done].
  intros (label' & st1 & _ & Hrun)%bindM_inv.
  apply bindM_inv in Hrun as ([[segs ts] dg] & st2 & [Hread _]%lift_inv & Hrun).
  destruct (is_empty segs); [done|].
  apply bindM_inv in Hrun as (_ & st3 & _ & Hrun).
  apply bindM_inv in Hrun as ([[trimmed truncated] kept] & st4 & _ & Hrun).
  apply bindM_inv in Hrun as (payload & st5 & _ & Hrun).
  apply bindM_inv in Hrun as (rec & st6 & _ & Hrun).
  apply bindM_inv in Hrun as (history_path & st7 & _ & [= <- <-]).
  assert (Hcounter : ∀ key r,
            key ≠ py "token_counter" →
            dict_get (if precise {| encoder := tiktoken_encoding |} then r
                      else dict_set r (py "token_counter")
                             (JStr (py "approximate")))
              key JNull
            = dict_get r key JNull).
  { intros key r Hkey. destruct (precise _); [done|].
    by rewrite dict_get_set_ne. }
  split_and!.
  - rewrite dict_get_set_ne by py_neq. rewrite Hcounter by py_neq.
    unfold dict_update. cbn [foldl fst snd].
    rewrite dict_get_set_ne by py_neq. apply dict_get_set_eq.
  - exists file, segs, ts, dg. split_and!; [done..|].
    rewrite dict_get_set_ne by py_neq. rewrite Hcounter by py_neq.
    unfold dict_update. cbn [foldl fst snd]. apply dict_get_set_eq.
  - intros ->. rewrite dict_get_set_ne by py_neq. apply dict_get_set_eq.
Qed.

Lemma summarize_record_provenance_witness :
  let outcome :=
    @summarize_session sample_runtime sample_services env_only_b
      (py "sessions/b.jsonl") JNull (py "gpt-5") 200000 (py "out") (JDict [])
      initial_state in
  ∃ record,
    outcome.1 = Ok record
    ∧ dict_get record (py "session_path") JNull = JStr (py "sessions/b.jsonl")
    ∧ (∃ file segs ts dg,
         files env_only_b !! py "sessions/b.jsonl" = Some file
         ∧ @_collect_segments sample_runtime (lines file) = Ok (segs, ts, dg)
         ∧ dict_get record (py "latest_timestamp") JNull
           = opt_str (@isoformat sample_runtime <$> ts))
    ∧ (precise {| encoder := @tiktoken_encoding sample_runtime |} = false →
       dict_get record (py "token_counter") JNull = JStr (py "approximate")).
Proof.
  cbv zeta.
  exists (match (@summarize_session sample_runtime sample_services env_only_b
                   (py "sessions/b.jsonl") JNull (py "gpt-5") 200000 (py "out")
                   (JDict []) initial_state).1 with
          | Ok record => record
          | _ => []
          end).
  assert (Hrun : (@summarize_session sample_runtime sample_services env_only_b
                    (py "sessions/b.jsonl") JNull (py "gpt-5") 200000
                    (py "out") (JDict []) initial_state).1
                 = Ok (match (@summarize_session sample_runtime sample_services
                                env_only_b (py "sessions/b.jsonl") JNull
                                (py "gpt-5") 200000 (py "out") (JDict [])
                                initial_state).1 with
                       | Ok record => record
                       | _ => []
                       end))
    by (vm_compute; reflexivity).
  split; [exact Hrun|].
  exact (@summarize_record_provenance sample_runtime sample_services env_only_b
           (py "sessions/b.jsonl") JNull (py "gpt-5") 200000 (py "out")
           (JDict []) initial_state _ Hrun).
Defined.
